(** * Speech-to-text client: job lifecycle of [speech2text_speechmatics.py]

    A shallow embedding of [src/logic/speech2text_speechmatics.py]:
    the configuration object, the REST client with its three operations and
    the orchestrating [transcript_audio], followed by the properties of the
    specification that concern them.

    The program talks to the outside (files, HTTP, the clock).  The outside
    is a [world]: the files that can be opened, the HTTP responses the
    service is going to give, in the order in which they will be asked for,
    the file objects that are open, and the trace of what the program did. *)

From Stdlib Require Import ZArith Lia Ascii String.
From stdpp Require Import gmap strings list fin_maps pretty.

#[local] Set Warnings "-register-all".
#[local] Open Scope Z_scope.

(** ** Python values

    What [json.load] can produce and what the program passes around.
    Numbers are integers only: a JSON number with a fraction would be a
    float, which is left out.  Text is held as its UTF-8 bytes. *)

Inductive pyval :=
| VNone
| VBool (b : bool)
| VInt (n : Z)
| VStr (s : string)
| VList (l : list pyval)
| VDict (d : gmap string pyval).

(** [bool(v)]: what [if v] and [not v] look at. *)
Definition truthy (v : pyval) : bool :=
  match v with
  | VNone => false
  | VBool b => b
  | VInt n => negb (n =? 0)
  | VStr s => negb (bool_decide (s = EmptyString))
  | VList l => match l with [] => false | _ => true end
  | VDict d => negb (bool_decide (d = ∅))
  end.

(** [v == 's'] for a string literal [s]. *)
Definition eq_str (v : pyval) (s : string) : bool :=
  match v with
  | VStr t => bool_decide (t = s)
  | _ => false
  end.

(** ** Exceptions

    One constructor per class the program can see.  [PyException] is an
    instance of the base class [Exception] itself, as in
    [raise Exception('...')]; exceptions raised by the interpreter carry no
    message here, their wording differs between Python versions. *)

Inductive exn :=
| PyException (msg : string)
| SpeechmaticsError (msg : string) (returncode : Z)
| TypeError
| KeyError (key : string)
| ValueError
| AttributeError
| IOError
| UnboundLocalError (name : string)
| OverflowError.

(** A computation returns, raises, or asks the world for an HTTP response
    when none is left in the script ([Starved]); the last is an artefact of
    finite scripts, no behaviour of the program. *)
Inductive outcome (A : Type) :=
| Return (a : A)
| Raise (e : exn)
| Starved.
Arguments Return {A} a.
Arguments Raise {A} e.
Arguments Starved {A}.

Definition omap' {A B} (f : A → B) (o : outcome A) : outcome B :=
  match o with
  | Return a => Return (f a)
  | Raise e => Raise e
  | Starved => Starved
  end.

(** [v[k]] for a string key [k]. *)
Definition getitem (v : pyval) (k : string) : outcome pyval :=
  match v with
  | VDict d => match d !! k with
               | Some x => Return x
               | None => Raise (KeyError k)
               end
  | _ => Raise TypeError
  end.

(** ** Strings *)

(** [c in s] for a one-character string [c]. *)
Fixpoint str_contains (c : ascii) (s : string) : bool :=
  match s with
  | EmptyString => false
  | String a s' => if Ascii.eqb a c then true else str_contains c s'
  end.

(** [s.split(c, 1)] for a one-character separator [c]: the list of the at
    most two parts. *)
Fixpoint split1 (c : ascii) (s : string) : list string :=
  match s with
  | EmptyString => [EmptyString]
  | String a s' =>
      if Ascii.eqb a c then [EmptyString; s']
      else match split1 c s' with
           | x :: r => String a x :: r
           | [] => []
           end
  end.

(** [(a, b) = l]: unpacking into two targets. *)
Definition unpack2 {A} (l : list A) : outcome (A * A) :=
  match l with
  | [a; b] => Return (a, b)
  | _ => Raise ValueError
  end.

(** A joined string is kept as its pieces: literal text, and [str(v)] of a
    value, whose rendering is not needed. *)
Inductive piece :=
| Lit (s : string)
| StrOf (v : pyval).

(** An item handed to [str.join]: a value, which has to be a string, or the
    result of [str]. *)
Definition item (v : pyval) : option piece :=
  match v with
  | VStr s => Some (Lit s)
  | _ => None
  end.

(** [str.join] of the empty string over [items]: [TypeError] when an item is no string. *)
Fixpoint join (items : list (option piece)) : outcome (list piece) :=
  match items with
  | [] => Return []
  | None :: _ => Raise TypeError
  | Some p :: rest => omap' (cons p) (join rest)
  end.

Definition nl : string := String "010"%char EmptyString.

(** [output.encode('utf-8')] *)
Definition encode_utf8 (s : string) : list Byte.byte := list_byte_of_string s.

(** ** The world *)

(** An HTTP response: the status code, the body as text, and what
    [json.loads] makes of that text ([None]: it is no JSON document, and
    [json.loads] raises [ValueError]). *)
Record response := {
  status_code : Z;
  body : string;
  json : option pyval
}.

(** What the program does that can be observed: the entry into a method
    of the client with its arguments, the two kinds of HTTP request, and a
    sleep. *)
Inductive event :=
| EvCall (method : string) (args : list pyval)
| EvPost (url : list piece) (data : gmap string pyval)
         (files : gmap string nat) (params : gmap string pyval)
| EvGet (url : list piece) (params : gmap string pyval)
| EvSleep (secs : Z).

(** [files]: the paths that can be opened, each with what [json.load] reads
    from it ([None]: no JSON); a descriptor [n] that is open is listed under
    the path that the system has for it, [/dev/fd/n].  [open_files]: the file objects that have been
    opened and that the program has not closed, with their path; what the
    garbage collector may do to a file object nobody holds any more is not
    part of the model.  [responses]: the script of the service.  [trace]:
    what happened so far, oldest first. *)
Record world := {
  files : gmap string (option pyval);
  open_files : gmap nat string;
  next_file : nat;
  responses : list response;
  trace : list event
}.

Definition M (A : Type) : Type := world → outcome A * world.

#[global] Instance M_ret : MRet M := λ A a w, (Return a, w).
#[global] Instance M_bind : MBind M := λ A B f m w,
  match m w with
  | (Return a, w') => f a w'
  | (Raise e, w') => (Raise e, w')
  | (Starved, w') => (Starved, w')
  end.

Definition lift {A} (o : outcome A) : M A := λ w, (o, w).
Definition raise {A} (e : exn) : M A := lift (Raise e).

Definition emit (e : event) : M unit := λ w,
  (Return tt,
   {| files := files w; open_files := open_files w; next_file := next_file w;
      responses := responses w; trace := trace w ++ [e] |}).

(** A request is logged and answered by the next response of the script. *)
Definition http (e : event) : M response := λ w,
  let w' := {| files := files w; open_files := open_files w;
               next_file := next_file w; responses := tl (responses w);
               trace := trace w ++ [e] |} in
  match responses w with
  | r :: _ => (Return r, w')
  | [] => (Starved, w')
  end.

(** The path under which the world lists the descriptor [n]. *)
Definition fd_name (n : Z) : string := "/dev/fd/" +:+ pretty n.

(** [open(n, ...)] for a descriptor [n] in the range of a C [int] that is
    not negative: a descriptor that is not open is refused with [OSError],
    which is [IOError]. *)
Definition open_fd (n : Z) : M nat := λ w,
  match files w !! fd_name n with
  | Some _ =>
      (Return (next_file w),
       {| files := files w;
          open_files := <[next_file w := fd_name n]> (open_files w);
          next_file := S (next_file w);
          responses := responses w; trace := trace w |})
  | None => (Raise IOError, w)
  end.

(** [open(path, ...)] for reading, as CPython 3.11 has it.  A string
    names a file of the world; a string that names none raises [IOError], or
    [ValueError] when it holds a NUL byte (no file of a file system has one in
    its name, so that the order of this test and of the lookup does not
    matter).  An integer is a descriptor: outside the range of a C [int] it is
    no path at all ([TypeError]), a negative one is refused with
    [ValueError], and the others are opened as [open_fd] has it; a boolean
    is the integer 0 or 1.  Anything else is no path. *)
Definition py_open (path : pyval) : M nat := λ w,
  match path with
  | VStr p =>
      match files w !! p with
      | Some _ =>
          (Return (next_file w),
           {| files := files w;
              open_files := <[next_file w := p]> (open_files w);
              next_file := S (next_file w);
              responses := responses w; trace := trace w |})
      | None =>
          if str_contains "000"%char p then (Raise ValueError, w)
          else (Raise IOError, w)
      end
  | VInt n =>
      if (n <? -2147483648) || (2147483647 <? n) then (Raise TypeError, w)
      else if n <? 0 then (Raise ValueError, w)
      else open_fd n w
  | VBool b => open_fd (if b then 1 else 0) w
  | _ => (Raise TypeError, w)
  end.

Definition py_close (f : nat) : M unit := λ w,
  (Return tt,
   {| files := files w; open_files := delete f (open_files w);
      next_file := next_file w; responses := responses w;
      trace := trace w |}).

(** [with ... as f: body]: the file is closed however the body ends. *)
Definition with_file {A} (f : nat) (body : M A) : M A := λ w,
  let '(o, w') := body w in (o, snd (py_close f w')).

(** [json.load(f)] *)
Definition json_load (f : nat) : M pyval := λ w,
  match open_files w !! f with
  | Some p =>
      match files w !! p with
      | Some (Some v) => (Return v, w)
      | _ => (Raise ValueError, w)
      end
  | None => (Raise ValueError, w)
  end.

(** [json.loads(request.text)] *)
Definition json_loads (r : response) : outcome pyval :=
  match json r with
  | Some v => Return v
  | None => Raise ValueError
  end.

(** [time.sleep(v)], as CPython 3.11 has it: the seconds are turned into
    nanoseconds on 64 bits, which fails with [OverflowError] from 9223372037
    seconds on, in either direction, before the sign is looked at; a negative
    length is refused with [ValueError]. *)
Definition sleep (v : pyval) : M unit :=
  match v with
  | VInt n =>
      if (n <? -9223372036) || (9223372036 <? n) then raise OverflowError
      else if n <? 0 then raise ValueError
      else emit (EvSleep n)
  | VBool b => emit (EvSleep (if b then 1 else 0))
  | _ => raise TypeError
  end.

Definition CONFIG_FILE : string := "./keys/speechmatics_config.json".

(** ** [class SpeechmaticsConfig] *)

Module SpeechmaticsConfig.

Record t := {
  userId : pyval;
  apiAuthToken : pyval;
  language : pyval;
  format : pyval;
  text : pyval;
  callback_url : pyval;
  notification : pyval;
  notification_email : pyval
}.

(** [__init__]: a parameter with a default is [None] when the caller
    leaves it out. *)
Definition init (userId apiAuthToken : pyval)
    (language format text callback_url notification notification_email :
       option pyval) : outcome t :=
  let language := default (VStr "en-US") language in
  let format := default (VStr "txt") format in
  let text := default VNone text in
  let callback_url := default VNone callback_url in
  let notification := default VNone notification in
  let notification_email := default VNone notification_email in
  if negb (truthy userId) then
    Raise (PyException "required userId is empty")
  else if negb (truthy apiAuthToken) then
    Raise (PyException "required apiAuthToken is empty")
  else if negb (truthy language) then
    Raise (PyException "required language is empty")
  else if negb (truthy format) then
    Raise (PyException "required format is empty")
  else
    Return {| userId := userId; apiAuthToken := apiAuthToken;
              language := language; format := format; text := text;
              callback_url := callback_url; notification := notification;
              notification_email := notification_email |}.

Definition parameters : list string :=
  ["userId"; "apiAuthToken"; "language"; "format"; "text"; "callback_url";
   "notification"; "notification_email"]%string.

(** The call of the class with a dictionary of keywords, as in
    [cls] applied to [**kwargs]: the interpreter binds the keywords to the
    parameters, and refuses with [TypeError] a keyword that is no
    parameter and a call that leaves out a parameter without default. *)
Definition call (kwargs : gmap string pyval) : outcome t :=
  if bool_decide (dom kwargs ⊆ list_to_set parameters) then
    match kwargs !! "userId"%string, kwargs !! "apiAuthToken"%string with
    | Some u, Some a =>
        init u a (kwargs !! "language"%string) (kwargs !! "format"%string)
          (kwargs !! "text"%string) (kwargs !! "callback_url"%string)
          (kwargs !! "notification"%string)
          (kwargs !! "notification_email"%string)
    | _, _ => Raise TypeError
    end
  else Raise TypeError.

(** [cls] applied to [**loaded_json]: what follows the stars has to be a
    mapping. *)
Definition call_star (loaded_json : pyval) : outcome t :=
  match loaded_json with
  | VDict kwargs => call kwargs
  | _ => Raise TypeError
  end.

Definition from_json (file_name : string) : M t :=
  f ← py_open (VStr file_name);
  loaded_json ← with_file f (json_load f);
  lift (call_star loaded_json).

End SpeechmaticsConfig.

(** ** [class SpeechmaticsClient] *)

Module SpeechmaticsClient.

Record t := {
  api_user_id : pyval;
  api_token : pyval;
  base_url : pyval
}.

Definition default_base_url : string := "https://api.speechmatics.com/v1.0".

Definition init (api_user_id api_token : pyval) : t :=
  {| api_user_id := api_user_id; api_token := api_token;
     base_url := VStr default_base_url |}.

(** Lines 92-94: [data = {"model": lang}] and the split at ['=']. *)
Definition model_data (lang : pyval) : outcome (gmap string pyval) :=
  let data : gmap string pyval := {[ "model"%string := lang ]} in
  match lang with
  | VStr s =>
      if str_contains "=" s then
        match unpack2 (split1 "=" s) with
        | Return (m, v) =>
            Return (<["version"%string := VStr v]>
                      (<["model"%string := VStr m]> data))
        | Raise e => Raise e
        | Starved => Starved
        end
      else Return data
  | VList l =>
      if existsb (λ x, eq_str x "=") l then Raise AttributeError
      else Return data
  | VDict d =>
      if bool_decide (is_Some (d !! "="%string)) then Raise AttributeError
      else Return data
  | _ => Raise TypeError
  end.

(** Lines 96-101. *)
Definition notify_data (callback_url notification notification_email : pyval)
    (data : gmap string pyval) : gmap string pyval :=
  let data :=
    if truthy notification then
      let data := <["notification"%string := notification]> data in
      if eq_str notification "callback"
      then <["callback"%string := callback_url]> data
      else data
    else data in
  if truthy notification_email
  then <["notification_email_address"%string := notification_email]> data
  else data.

(** The part of the message of a failed POST that depends on the code. *)
Definition post_hint (code : Z) : string :=
  if code =? 400 then
    "Common causes of this error are:" +:+ nl +:+
    "Malformed arguments" +:+ nl +:+
    "Missing data file" +:+ nl +:+
    "Absent / unsupported language selection."
  else if code =? 401 then
    "Common causes of this error are:" +:+ nl +:+
    "Invalid user id or authentication token."
  else if code =? 403 then
    "Common causes of this error are:" +:+ nl +:+
    "Insufficient credit" +:+ nl +:+
    "User id not in our database" +:+ nl +:+
    "Incorrect authentication token."
  else if code =? 429 then
    "Common causes of this error are:" +:+ nl +:+
    "You are submitting too many POSTs in a short period of time."
  else if code =? 503 then
    "Common causes of this error are:" +:+ nl +:+
    "The system is temporarily unavailable or overloaded." +:+ nl +:+
    "Your POST will typically succeed if you try again soon."
  else EmptyString.

Definition post_err_msg (code : Z) : string :=
  "Attempt to POST job failed with code " +:+ pretty code +:+ nl +:+
  post_hint code +:+ nl +:+
  "If you are still unsure why your POST failed please contact speechmatics:support@speechmatics.com".

Definition get_err_msg (code : Z) : string :=
  "Attempt to GET job details failed with code " +:+ pretty code +:+ nl +:+
  "If you are still unsure why your POST failed please contact speechmatics:support@speechmatics.com".

(** Lines 104-132: what [job_post] makes of the response. *)
Definition job_post_result (request : response) : outcome pyval :=
  if status_code request =? 200 then
    match json_loads request with
    | Return json_out => getitem json_out "id"
    | Raise e => Raise e
    | Starved => Starved
    end
  else Raise (SpeechmaticsError (post_err_msg (status_code request)) 1).

(** Lines 143-149. *)
Definition job_details_result (request : response) : outcome pyval :=
  if status_code request =? 200 then
    match json_loads request with
    | Return j => getitem j "job"
    | Raise e => Raise e
    | Starved => Starved
    end
  else Raise (SpeechmaticsError (get_err_msg (status_code request)) 1).

(** Lines 164-171. *)
Definition get_output_result (request : response) : outcome string :=
  if status_code request =? 200 then Return (body request)
  else Raise (SpeechmaticsError (get_err_msg (status_code request)) 1).

(** Line 77. *)
Definition jobs_url (self : t) : outcome (list piece) :=
  join [item (base_url self); Some (Lit "/user/"); item (api_user_id self);
        Some (Lit "/jobs/")].

Definition job_post (self : t)
    (audio lang text callback_url notification notification_email : pyval)
    : M pyval :=
  emit (EvCall "job_post"
          [audio; lang; text; callback_url; notification;
           notification_email]);;
  url ← lift (jobs_url self);
  let params : gmap string pyval :=
    {[ "auth_token"%string := api_token self ]} in
  f ← py_open audio;
  let files : gmap string nat := {[ "data_file"%string := f ]} in
  files ← (if truthy text
           then g ← py_open text; mret (<["text_file"%string := g]> files)
           else mret files);
  data ← lift (model_data lang);
  let data := notify_data callback_url notification notification_email data in
  request ← http (EvPost url data files params);
  lift (job_post_result request).

(** Lines 140-141. *)
Definition details_url (self : t) (job_id : pyval) : outcome (list piece) :=
  join [item (base_url self); Some (Lit "/user/"); item (api_user_id self);
        Some (Lit "/jobs/"); Some (StrOf job_id); Some (Lit "/")].

Definition job_details (self : t) (job_id : pyval) : M pyval :=
  emit (EvCall "job_details" [job_id]);;
  let params : gmap string pyval :=
    {[ "auth_token"%string := api_token self ]} in
  url ← lift (details_url self job_id);
  request ← http (EvGet url params);
  lift (job_details_result request).

(** Lines 156-160. *)
Definition output_params (self : t) (frmat job_type : pyval)
    : gmap string pyval :=
  let params : gmap string pyval :=
    {[ "auth_token"%string := api_token self ]} in
  let params :=
    if truthy frmat && eq_str job_type "transcript"
    then <["format"%string := VStr "txt"]> params else params in
  if truthy frmat && eq_str job_type "alignment"
  then <["tags"%string := VStr "one_per_line"]> params else params.

(** Lines 161-162. *)
Definition output_url (self : t) (job_id job_type : pyval)
    : outcome (list piece) :=
  join [item (base_url self); Some (Lit "/user/"); item (api_user_id self);
        Some (Lit "/jobs/"); Some (StrOf job_id); Some (Lit "/");
        item job_type].

Definition get_output (self : t) (job_id frmat job_type : pyval) : M string :=
  emit (EvCall "get_output" [job_id; frmat; job_type]);;
  let params := output_params self frmat job_type in
  url ← lift (output_url self job_id job_type);
  request ← http (EvGet url params);
  lift (get_output_result request).

End SpeechmaticsClient.

(** ** [class SpeechmaticsSpeechToText] *)

Module SpeechmaticsSpeechToText.

Definition terminal (status : pyval) : bool :=
  existsb (eq_str status)
    ["done"; "expired"; "unsupported_file_format"; "could_not_align"]%string.

Definition unsupported_msg : string :=
  "File was in an unsupported file format and could not be transcribed. You have been reimbursed all credits for this job.".

Definition align_msg : string :=
  "Could not align text and audio file. You have been reimbursed all credits for this job.".

(** The [while] loop of lines 195-200.  Every turn that goes round takes
    a response from the script, so a [fuel] above the length of the script
    never runs out. *)
Fixpoint poll (fuel : nat) (client : SpeechmaticsClient.t)
    (job_id details : pyval) : M pyval :=
  status ← lift (getitem details "job_status");
  if terminal status then mret details
  else
    match fuel with
    | O => lift Starved
    | S fuel =>
        wait_s ← lift (getitem details "check_wait");
        sleep wait_s;;
        details ← SpeechmaticsClient.job_details client job_id;
        poll fuel client job_id details
    end.

(** Lines 212-215: the local [job_type] stays unbound when neither
    branch is taken. *)
Definition output_kind (details : pyval) : outcome (option string) :=
  match getitem details "job_type" with
  | Return jt =>
      if eq_str jt "transcription" then Return (Some "transcript"%string)
      else
        match getitem details "job_type" with
        | Return jt =>
            if eq_str jt "alignment" then Return (Some "alignment"%string)
            else Return None
        | Raise e => Raise e
        | Starved => Starved
        end
  | Raise e => Raise e
  | Starved => Starved
  end.

(** Lines 202-220: what follows the loop. *)
Definition fetch_output (config : SpeechmaticsConfig.t)
    (client : SpeechmaticsClient.t) (job_id details : pyval)
    : M (list Byte.byte) :=
  status ← lift (getitem details "job_status");
  if eq_str status "unsupported_file_format" then
    raise (SpeechmaticsError unsupported_msg 1)
  else
    status ← lift (getitem details "job_status");
    if eq_str status "could_not_align" then
      raise (SpeechmaticsError align_msg 1)
    else
      job_type ← lift (output_kind details);
      match job_type with
      | None => raise (UnboundLocalError "job_type")
      | Some job_type =>
          output ← SpeechmaticsClient.get_output client job_id
                     (SpeechmaticsConfig.format config) (VStr job_type);
          mret (encode_utf8 output)
      end.

(** Lines 193-220: from the first fetch of the details on. *)
Definition poll_and_fetch (config : SpeechmaticsConfig.t)
    (client : SpeechmaticsClient.t) (job_id : pyval)
    : M (list Byte.byte) :=
  details ← SpeechmaticsClient.job_details client job_id;
  fuel ← (λ w, (Return (S (length (responses w))), w));
  details ← poll fuel client job_id details;
  fetch_output config client job_id details.

(** Line 188. *)
Definition client_of (config : SpeechmaticsConfig.t) : SpeechmaticsClient.t :=
  SpeechmaticsClient.init (SpeechmaticsConfig.userId config)
    (SpeechmaticsConfig.apiAuthToken config).

(** Line 190. *)
Definition submit (config : SpeechmaticsConfig.t) (full_path : pyval)
    : M pyval :=
  SpeechmaticsClient.job_post (client_of config) full_path
    (SpeechmaticsConfig.language config)
    (SpeechmaticsConfig.text config)
    (SpeechmaticsConfig.callback_url config)
    (SpeechmaticsConfig.notification config)
    (SpeechmaticsConfig.notification_email config).

Definition transcript_audio (full_path : pyval) : M (list Byte.byte) :=
  config ← SpeechmaticsConfig.from_json CONFIG_FILE;
  let client := client_of config in
  job_id ← submit config full_path;
  poll_and_fetch config client job_id.

End SpeechmaticsSpeechToText.


(** * Vocabulary of the specification *)

(** ** The error taxonomy

    The program has two exception classes of its own use: the base class
    [Exception], raised by the validation of the configuration, and
    [SpeechmaticsError], raised for a response that is not 200 and for a
    job that ended in failure.  The specification's [ConfigurationError] is
    the first, its [RemoteServiceError] and [TranscriptionError] are both the
    second and differ by their message, and its [IOFailure] is [IOError].
    An error is of a kind when it is an instance of that very class: every
    exception of Python derives from [Exception], and the kinds would be one
    if a derived class counted. *)

Definition is_ConfigurationError (e : exn) : Prop :=
  ∃ msg, e = PyException msg.





(** The text of a message, line by line. *)
Definition newline : string := String "010"%char EmptyString.

Definition unlines (lines : list string) : string :=
  String.concat newline lines.

(** The last line of every message about a response that is not 200. *)
Definition support_line : string :=
  "If you are still unsure why your POST failed please contact speechmatics:support@speechmatics.com".


(** A value is empty when [not v] holds: the empty string, [None], and the
    other values Python takes for false. *)
Definition empty (v : pyval) : Prop := truthy v = false.

(** ** Worlds and traces *)

(** The world after some responses were taken and some events logged. *)
Definition advance (w : world) (rs : list response) (evs : list event) : world :=
  {| files := files w; open_files := open_files w; next_file := next_file w;
     responses := rs; trace := trace w ++ evs |}.

(** What an operation makes of the next response of the script. *)
Definition next_result {A} (handle : response → outcome A) (w : world)
    : outcome A :=
  match responses w with
  | r :: _ => handle r
  | [] => Starved
  end.

Definition post_call (audio lang text callback_url notification
    notification_email : pyval) : event :=
  EvCall "job_post"
    [audio; lang; text; callback_url; notification; notification_email].

(** The status codes for which [job_post] has a message of its own. *)
Definition post_codes : list Z := [400; 401; 403; 429; 503].

(** The events of one fetch of the details, of the fetch of the output, and
    of the whole polling with its waits, for a client of user [uid]. *)
Definition details_events (uid : string) (token job_id : pyval) : list event :=
  [EvCall "job_details" [job_id];
   EvGet [Lit SpeechmaticsClient.default_base_url; Lit "/user/"; Lit uid;
          Lit "/jobs/"; StrOf job_id; Lit "/"]
     {[ "auth_token"%string := token ]}].

Definition output_events (uid : string) (token job_id frmat : pyval)
    (kind : string) : list event :=
  [EvCall "get_output" [job_id; frmat; VStr kind];
   EvGet [Lit SpeechmaticsClient.default_base_url; Lit "/user/"; Lit uid;
          Lit "/jobs/"; StrOf job_id; Lit "/"; Lit kind]
     (SpeechmaticsClient.output_params
        (SpeechmaticsClient.init (VStr uid) token) frmat (VStr kind))].




(** The values whose [str] went into a URL. *)
Definition url_ids (url : list piece) : list pyval :=
  omap (λ p, match p with StrOf v => Some v | Lit _ => None end) url.

(** An event of the client that is about the job [job_id] and no other. *)
Definition follows (job_id : pyval) (e : event) : Prop :=
  match e with
  | EvCall method args =>
      method = "job_details"%string ∧ args = [job_id]
      ∨ method = "get_output"%string
        ∧ ∃ frmat kind, args = [job_id; frmat; kind]
  | EvGet url _ => url_ids url = [job_id]
  | EvPost _ _ _ _ => False
  | EvSleep _ => True
  end.

(** All that the computation adds to the trace satisfies [P]. *)
Definition emits_only {A} (P : event → Prop) (m : M A) : Prop :=
  ∀ w o w', m w = (o, w') →
    ∃ later, trace w' = trace w ++ later ∧ Forall P later.

(** ** Sample data *)

Definition config_u1 : gmap string pyval :=
  {[ "userId"%string := VStr "u1"; "apiAuthToken"%string := VStr "t1";
     "language"%string := VStr "en-US"; "format"%string := VStr "txt" ]}.

Definition config_u1_loaded : SpeechmaticsConfig.t :=
  {| SpeechmaticsConfig.userId := VStr "u1";
     SpeechmaticsConfig.apiAuthToken := VStr "t1";
     SpeechmaticsConfig.language := VStr "en-US";
     SpeechmaticsConfig.format := VStr "txt";
     SpeechmaticsConfig.text := VNone;
     SpeechmaticsConfig.callback_url := VNone;
     SpeechmaticsConfig.notification := VNone;
     SpeechmaticsConfig.notification_email := VNone |}.

(** A configuration file with a field the constructor does not know. *)
Definition config_extra_field : gmap string pyval :=
  {[ "userId"%string := VStr "u1"; "apiAuthToken"%string := VStr "t1";
     "colour"%string := VStr "red" ]}.

Definition ok_json (v : pyval) : response :=
  {| status_code := 200; body := EmptyString; json := Some v |}.

Definition submitted (job_id : pyval) : response :=
  ok_json (VDict {[ "id"%string := job_id ]}).

Definition details (d : gmap string pyval) : response :=
  ok_json (VDict {[ "job"%string := VDict d ]}).

Definition running (check_wait : Z) : gmap string pyval :=
  {[ "job_status"%string := VStr "running";
     "check_wait"%string := VInt check_wait ]}.

Definition ended (status : string) (job_type : pyval) : gmap string pyval :=
  {[ "job_status"%string := VStr status; "job_type"%string := job_type ]}.

Definition output (s : string) : response :=
  {| status_code := 200; body := s; json := None |}.

Definition failed (code : Z) : response :=
  {| status_code := code; body := EmptyString; json := None |}.

(** A world with the configuration file, an audio file and a text file. *)
Definition world_of (config : pyval) (script : list response) : world :=
  {| files := {[ CONFIG_FILE := Some config; "a.mp3"%string := None;
                 "a.txt"%string := None ]};
     open_files := ∅; next_file := 0%nat;
     responses := script; trace := [] |}.

Definition client_u1 : SpeechmaticsClient.t :=
  SpeechmaticsClient.init (VStr "u1") (VStr "t1").

(** The world after the configuration was loaded and the job submitted. *)
Definition loaded (w : world) : world :=
  snd (SpeechmaticsConfig.from_json CONFIG_FILE w).

Definition posted (w : world) : world :=
  snd (SpeechmaticsSpeechToText.submit config_u1_loaded (VStr "a.mp3")
         (loaded w)).

Definition script_done : list response :=
  [submitted (VStr "7"); details (ended "done" (VStr "transcription"));
   output "hello world"].

(** The script of the specification's polling example, and scripts that
    end in a failure status, in [expired], and in a job type the program
    does not know. *)
Definition script_waits : list response :=
  [submitted (VStr "42"); details (running 2); details (running 5);
   details (ended "done" (VStr "transcription")); output "hello world"].

Definition script_unsupported : list response :=
  [submitted (VStr "42"); details (running 2);
   details (ended "unsupported_file_format" (VStr "transcription"))].




(** The form fields for the language ["en=v=2"]. *)
Definition data_en_v2 : gmap string pyval :=
  {[ "model"%string := VStr "en"; "version"%string := VStr "v=2" ]}.

(** ** More vocabulary: runs that fail, what a run takes and raises *)




(** What [job_post], [job_details] and [get_output] make of a field [k] of
    the JSON body of a response. *)
Definition json_field (r : response) (k : string) : outcome pyval :=
  match json r with
  | None => Raise ValueError
  | Some (VDict m) =>
      match m !! k with
      | Some v => Return v
      | None => Raise (KeyError k)
      end
  | Some _ => Raise TypeError
  end.

(** [consumed w w']: the script of [w'] is what is left of the script of
    [w] after some responses were taken from its front. *)
Definition consumed (w w' : world) : Prop :=
  ∃ used, responses w = used ++ responses w'.

(** The computation relates the world it starts in to the one it ends in
    by [R], however it ends. *)
Definition keeps {A} (R : world → world → Prop) (m : M A) : Prop :=
  ∀ w o w', m w = (o, w') → R w w'.

(** The computation raises no exception outside [E]. *)
Definition raises_only {A} (E : exn → Prop) (m : M A) : Prop :=
  ∀ w e w', m w = (Raise e, w') → E e.

(** The exceptions that a run of [transcript_audio] can end with. *)
Definition expected_error (e : exn) : Prop :=
  match e with
  | PyException msg =>
      msg ∈ ["required userId is empty"; "required apiAuthToken is empty";
             "required language is empty"; "required format is empty"]%string
  | SpeechmaticsError msg returncode =>
      returncode = 1
      ∧ ((∃ code, code ≠ 200
                  ∧ (msg = SpeechmaticsClient.post_err_msg code
                     ∨ msg = SpeechmaticsClient.get_err_msg code))
         ∨ msg = SpeechmaticsSpeechToText.unsupported_msg
         ∨ msg = SpeechmaticsSpeechToText.align_msg)
  | KeyError key =>
      key ∈ ["id"; "job"; "job_status"; "check_wait"; "job_type"]%string
  | UnboundLocalError name => name = "job_type"%string
  | TypeError | ValueError | AttributeError | IOError | OverflowError => True
  end.

(** A request that goes to the jobs of the user of the client, with the
    token of the client. *)
Definition addressed (client : SpeechmaticsClient.t) (e : event) : Prop :=
  match e with
  | EvPost url _ _ params =>
      SpeechmaticsClient.jobs_url client = Return url
      ∧ params !! "auth_token"%string
        = Some (SpeechmaticsClient.api_token client)
  | EvGet url params =>
      (∃ jobs rest, SpeechmaticsClient.jobs_url client = Return jobs
                    ∧ url = jobs ++ rest)
      ∧ params !! "auth_token"%string
        = Some (SpeechmaticsClient.api_token client)
  | EvCall _ _ | EvSleep _ => True
  end.

(** ** More sample data *)




(** A world without any file. *)
Definition empty_world : world :=
  {| files := ∅; open_files := ∅; next_file := 0%nat;
     responses := []; trace := [] |}.

(** A configuration file whose user identifier is a number. *)
Definition config_numeric_user : gmap string pyval :=
  {[ "userId"%string := VInt 5; "apiAuthToken"%string := VStr "t1" ]}.

Definition config_numeric_loaded : SpeechmaticsConfig.t :=
  {| SpeechmaticsConfig.userId := VInt 5;
     SpeechmaticsConfig.apiAuthToken := VStr "t1";
     SpeechmaticsConfig.language := VStr "en-US";
     SpeechmaticsConfig.format := VStr "txt";
     SpeechmaticsConfig.text := VNone;
     SpeechmaticsConfig.callback_url := VNone;
     SpeechmaticsConfig.notification := VNone;
     SpeechmaticsConfig.notification_email := VNone |}.

(** The form fields of a submission with the notification ['callback'], no
    callback URL and a notification address. *)
Definition data_callback : gmap string pyval :=
  {[ "model"%string := VStr "en-US";
     "notification"%string := VStr "callback";
     "callback"%string := VNone;
     "notification_email_address"%string := VStr "a@b.c" ]}.

(** The query for the output of an alignment. *)
Definition params_alignment : gmap string pyval :=
  {[ "auth_token"%string := VStr "t1";
     "tags"%string := VStr "one_per_line" ]}.

(** * The monad *)

Lemma bind_run {A B} (m : M A) (f : A → M B) (w : world) :
  (m ≫= f) w =
  match m w with
  | (Return a, w') => f a w'
  | (Raise e, w') => (Raise e, w')
  | (Starved, w') => (Starved, w')
  end.
Proof. reflexivity. Qed.


Lemma cons_ne_tail {A} (x : A) (l : list A) : x :: l ≠ l.
Proof. intros H. apply (f_equal length) in H. simpl in H. lia. Qed.


(** * Configuration *)

Lemma init_cases (userId apiAuthToken : pyval)
    (language format text callback_url notification notification_email :
       option pyval) :
  let construct :=
    SpeechmaticsConfig.init userId apiAuthToken language format text
      callback_url notification notification_email in
  construct = Raise (PyException "required userId is empty") ∧ empty userId
  ∨ construct = Raise (PyException "required apiAuthToken is empty")
    ∧ empty apiAuthToken
  ∨ construct = Raise (PyException "required language is empty")
    ∧ empty (default (VStr "en-US") language)
  ∨ construct = Raise (PyException "required format is empty")
    ∧ empty (default (VStr "txt") format)
  ∨ construct =
      Return {| SpeechmaticsConfig.userId := userId;
                SpeechmaticsConfig.apiAuthToken := apiAuthToken;
                SpeechmaticsConfig.language := default (VStr "en-US") language;
                SpeechmaticsConfig.format := default (VStr "txt") format;
                SpeechmaticsConfig.text := default VNone text;
                SpeechmaticsConfig.callback_url := default VNone callback_url;
                SpeechmaticsConfig.notification := default VNone notification;
                SpeechmaticsConfig.notification_email :=
                  default VNone notification_email |}
    ∧ truthy userId = true ∧ truthy apiAuthToken = true
    ∧ truthy (default (VStr "en-US") language) = true
    ∧ truthy (default (VStr "txt") format) = true.
Proof.
  unfold empty, SpeechmaticsConfig.init. simpl.
  destruct (truthy userId); [|by left].
  destruct (truthy apiAuthToken); [|by right; left].
  destruct (truthy (default (VStr "en-US") language)); [|by right; right; left].
  destruct (truthy (default (VStr "txt") format)); [|by right; right; right; left].
  by right; right; right; right.
Qed.

(** C3.  Construction fails with [ConfigurationError] exactly when one of
    [userId], [apiAuthToken], [language], [format] is empty or [None], a
    [language] or [format] that the caller leaves out being first replaced
    by its default ["en-US"] or ["txt"]; when the four are non-empty it
    succeeds, with these defaults in the fields left out. *)
Theorem C3_construct_validates (userId apiAuthToken : pyval)
    (language format text callback_url notification notification_email :
       option pyval) :
  let construct :=
    SpeechmaticsConfig.init userId apiAuthToken language format text
      callback_url notification notification_email in
  ((∃ e, construct = Raise e ∧ is_ConfigurationError e)
   ↔ empty userId ∨ empty apiAuthToken
     ∨ empty (default (VStr "en-US") language)
     ∨ empty (default (VStr "txt") format))
  ∧ ((∃ c, construct = Return c)
     ↔ ¬ (empty userId ∨ empty apiAuthToken
          ∨ empty (default (VStr "en-US") language)
          ∨ empty (default (VStr "txt") format)))
  ∧ (∀ c, construct = Return c →
       SpeechmaticsConfig.userId c = userId
       ∧ SpeechmaticsConfig.apiAuthToken c = apiAuthToken
       ∧ SpeechmaticsConfig.language c = default (VStr "en-US") language
       ∧ SpeechmaticsConfig.format c = default (VStr "txt") format)
  ∧ default (VStr "en-US") (@None pyval) = VStr "en-US"
  ∧ default (VStr "txt") (@None pyval) = VStr "txt".
Proof.
  intros construct.
  destruct (init_cases userId apiAuthToken language format text callback_url
              notification notification_email)
    as [[E H]|[[E H]|[[E H]|[[E H]|(E & H1 & H2 & H3 & H4)]]]];
    fold construct in E; unfold empty in *; rewrite E.
  1-4: split_and!; try done;
    [ split; [tauto | intros _; eexists; split; [done | by eexists]]
    | split; [by intros [? ?] | tauto] ].
  split_and!; try done.
  - split; [by intros (? & ? & ?)| intros [?|[?|[?|?]]]; congruence].
  - split; [intros _ [?|[?|[?|?]]]; congruence | by eexists].
  - by intros c [= <-].
Qed.

(** With the user and the token given and nothing else, the configuration
    is built with the defaults. *)
Lemma C3_construct_validates_witness :
  SpeechmaticsConfig.language config_u1_loaded = VStr "en-US"
  ∧ SpeechmaticsConfig.format config_u1_loaded = VStr "txt".
Proof.
  destruct (C3_construct_validates (VStr "u1") (VStr "t1") None None None None
              None None) as (_ & _ & H & _).
  destruct (H config_u1_loaded eq_refl) as (_ & _ & Hl & Hf).
  split; [exact Hl | exact Hf].
Defined.

(** * Loading the configuration *)

(** The file is read and closed, and the record goes to the constructor. *)
Lemma from_json_run (file_name : string) (w : world) (rec : pyval) :
  files w !! file_name = Some (Some rec) →
  SpeechmaticsConfig.from_json file_name w =
  (SpeechmaticsConfig.call_star rec,
   {| files := files w;
      open_files := delete (next_file w)
                      (<[next_file w := file_name]> (open_files w));
      next_file := S (next_file w);
      responses := responses w; trace := trace w |}).
Proof.
  intros Hf. unfold SpeechmaticsConfig.from_json.
  rewrite bind_run. unfold py_open at 1. rewrite Hf.
  rewrite bind_run. unfold with_file, json_load, py_close. simpl.
  rewrite lookup_insert_eq, Hf. reflexivity.
Qed.

Lemma from_json_inv file_name w o w' :
  SpeechmaticsConfig.from_json file_name w = (o, w') →
  trace w' = trace w ∧ responses w' = responses w.
Proof.
  unfold SpeechmaticsConfig.from_json. rewrite bind_run. unfold py_open at 1.
  destruct (files w !! file_name);
    [|by destruct (str_contains _ _); intros [= <- <-]].
  rewrite bind_run. unfold with_file, json_load, py_close. simpl.
  rewrite lookup_insert_eq. unfold lift.
  destruct (files w !! file_name) as [[v|]|]; intros [= <- <-]; done.
Qed.

(** The [with] block of [from_json] leaves no file open. *)
Lemma from_json_closes file_name w rec :
  files w !! file_name = Some (Some rec) →
  open_files w !! next_file w = None →
  open_files (snd (SpeechmaticsConfig.from_json file_name w)) = open_files w.
Proof.
  intros Hf Hn. rewrite (from_json_run _ _ _ Hf). simpl.
  by apply delete_insert_id.
Qed.

Lemma call_unknown_key (d : gmap string pyval) (k : string) :
  is_Some (d !! k) → k ∉ SpeechmaticsConfig.parameters →
  SpeechmaticsConfig.call d = Raise TypeError.
Proof.
  intros Hk Hn. unfold SpeechmaticsConfig.call.
  rewrite bool_decide_eq_false_2; [done|].
  intros Hsub. apply Hn. apply elem_of_dom in Hk.
  apply Hsub in Hk. by apply elem_of_list_to_set in Hk.
Qed.

Lemma call_missing_required (d : gmap string pyval) :
  d !! "userId"%string = None ∨ d !! "apiAuthToken"%string = None →
  SpeechmaticsConfig.call d = Raise TypeError.
Proof.
  intros H. unfold SpeechmaticsConfig.call. case_bool_decide; [|done].
  destruct H as [-> | ->]; [done|]. by destruct (d !! "userId"%string).
Qed.

Lemma call_well_formed (d : gmap string pyval) (u a : pyval) :
  dom d ⊆ list_to_set SpeechmaticsConfig.parameters →
  d !! "userId"%string = Some u → d !! "apiAuthToken"%string = Some a →
  SpeechmaticsConfig.call d =
  SpeechmaticsConfig.init u a (d !! "language"%string) (d !! "format"%string)
    (d !! "text"%string) (d !! "callback_url"%string)
    (d !! "notification"%string) (d !! "notification_email"%string).
Proof.
  intros Hsub Hu Ha. unfold SpeechmaticsConfig.call.
  rewrite bool_decide_eq_true_2 by done. by rewrite Hu, Ha.
Qed.

(** C8, as the code has it.  A record with a field that is no parameter
    of the constructor, a record without [userId] or [apiAuthToken], and a
    document that is no record are refused by the binding of the arguments
    with [TypeError], which is no [ConfigurationError]; a record of known
    fields with both required ones is validated as by the constructor
    called with these fields. *)
Theorem C8_from_json_binds_then_validates
    (file_name : string) (w : world) (rec : pyval) :
  files w !! file_name = Some (Some rec) →
  let r := fst (SpeechmaticsConfig.from_json file_name w) in
  (∀ d k, rec = VDict d → is_Some (d !! k) →
     k ∉ SpeechmaticsConfig.parameters → r = Raise TypeError)
  ∧ (∀ d, rec = VDict d →
       d !! "userId"%string = None ∨ d !! "apiAuthToken"%string = None →
       r = Raise TypeError)
  ∧ ((∀ d, rec ≠ VDict d) → r = Raise TypeError)
  ∧ ¬ is_ConfigurationError TypeError
  ∧ (∀ d u a, rec = VDict d →
       dom d ⊆ list_to_set SpeechmaticsConfig.parameters →
       d !! "userId"%string = Some u → d !! "apiAuthToken"%string = Some a →
       r = SpeechmaticsConfig.init u a (d !! "language"%string)
             (d !! "format"%string) (d !! "text"%string)
             (d !! "callback_url"%string) (d !! "notification"%string)
             (d !! "notification_email"%string)).
Proof.
  intros Hf r. subst r. rewrite (from_json_run _ _ _ Hf). simpl.
  split_and!.
  - intros d k -> Hk Hn. by eapply call_unknown_key.
  - intros d -> H. by apply call_missing_required.
  - intros H. destruct rec; try done. by destruct (H d).
  - by intros [msg ?].
  - intros d u a -> Hsub Hu Ha. by apply call_well_formed.
Qed.

(** The record with the field [colour] is refused with [TypeError]. *)
Lemma C8_from_json_binds_then_validates_witness :
  fst (SpeechmaticsConfig.from_json CONFIG_FILE
         (world_of (VDict config_extra_field) [])) = Raise TypeError.
Proof.
  refine (proj1 (C8_from_json_binds_then_validates CONFIG_FILE
           (world_of (VDict config_extra_field) []) (VDict config_extra_field)
           _) config_extra_field "colour"%string eq_refl _ _).
  - vm_compute. reflexivity.
  - vm_compute. eexists. reflexivity.
  - apply (bool_decide_unpack _). vm_compute. exact I.
Defined.

(** C8 as stated fails: the record with the unrecognized field [colour]
    does not make the loading fail with a [ConfigurationError]. *)
Lemma C8_unrecognized_field_is_TypeError :
  ¬ (∃ e, fst (SpeechmaticsConfig.from_json CONFIG_FILE
                 (world_of (VDict config_extra_field) [])) = Raise e
          ∧ is_ConfigurationError e).
Proof.
  intros (e & He & msg & ->). vm_compute in He. discriminate He.
Qed.

(** * The client *)

Lemma open_fd_inv (n : Z) (w : world) (o : outcome nat) (w' : world) :
  open_fd n w = (o, w') →
  trace w' = trace w ∧ responses w' = responses w
  ∧ (∀ k, (k < next_file w)%nat → open_files w' !! k = open_files w !! k)
  ∧ ((∀ f, o ≠ Return f)
     ∨ (o = Return (next_file w)
        ∧ open_files w' !! next_file w = Some (fd_name n)
        ∧ next_file w' = S (next_file w))).
Proof.
  unfold open_fd. destruct (files w !! fd_name n); intros [= <- <-]; simpl.
  - split_and!; [done|done| |].
    + intros k Hk. apply lookup_insert_ne. lia.
    + right. split_and!; [done|apply lookup_insert_eq|done].
  - split_and!; [done..|by left].
Qed.

Lemma py_open_inv (path : pyval) (w : world) (o : outcome nat) (w' : world) :
  py_open path w = (o, w') →
  trace w' = trace w ∧ responses w' = responses w
  ∧ (∀ k, (k < next_file w)%nat → open_files w' !! k = open_files w !! k)
  ∧ ((∀ f, o ≠ Return f)
     ∨ (∃ name, o = Return (next_file w)
                ∧ open_files w' !! next_file w = Some name
                ∧ next_file w' = S (next_file w)
                ∧ (∀ p, path = VStr p → name = p))).
Proof.
  unfold py_open. intros H.
  destruct path as [|b|n|p| |];
    try (injection H as <- <-; split_and!; [done..|by left]; fail).
  - apply open_fd_inv in H as (Ht & Hr & Ho & [Hne|(-> & Hf & Hn)]);
      (split_and!; [done..|]); [by left|].
    right. eexists. split_and!; [done..|]. intros p Hp. discriminate Hp.
  - destruct ((n <? -2147483648) || (2147483647 <? n));
      [injection H as <- <-; split_and!; [done..|by left]|].
    destruct (n <? 0);
      [injection H as <- <-; split_and!; [done..|by left]|].
    apply open_fd_inv in H as (Ht & Hr & Ho & [Hne|(-> & Hf & Hn)]);
      (split_and!; [done..|]); [by left|].
    right. eexists. split_and!; [done..|]. intros p Hp. discriminate Hp.
  - destruct (files w !! p);
      [|destruct (str_contains _ p); injection H as <- <-;
        (split_and!; [done..|by left])].
    injection H as <- <-. simpl. split_and!; [done|done| |].
    + intros k Hk. apply lookup_insert_ne. lia.
    + right. exists p. split_and!; [done|apply lookup_insert_eq|done|].
      by intros ? [= <-].
Qed.

(** A run of [job_post] either stops before any request, or makes the one
    POST with the data of lines 92-101 and handles the response; and the
    audio file, once opened, is open at the end in both cases. *)
Lemma job_post_inv self audio lang text cb nt ne w o w' :
  SpeechmaticsClient.job_post self audio lang text cb nt ne w = (o, w') →
  (((∀ v, o ≠ Return v) ∧ responses w' = responses w
    ∧ trace w' = trace w ++ [post_call audio lang text cb nt ne])
  ∨ (∃ url fs data0,
       SpeechmaticsClient.jobs_url self = Return url
       ∧ SpeechmaticsClient.model_data lang = Return data0
       ∧ trace w' = trace w ++
           [post_call audio lang text cb nt ne;
            EvPost url (SpeechmaticsClient.notify_data cb nt ne data0) fs
              {[ "auth_token"%string := SpeechmaticsClient.api_token self ]}]
       ∧ responses w' = tl (responses w)
       ∧ o = next_result SpeechmaticsClient.job_post_result w))
  ∧ (∀ url p,
       SpeechmaticsClient.jobs_url self = Return url →
       audio = VStr p → is_Some (files w !! p) →
       open_files w' !! next_file w = Some p).
Proof.
  intros H. unfold SpeechmaticsClient.job_post in H.
  rewrite bind_run in H. unfold emit at 1 in H. cbv beta iota in H.
  rewrite bind_run in H. unfold lift at 1 in H.
  destruct (SpeechmaticsClient.jobs_url self) as [url|e|] eqn:Ej;
    [| injection H as <- <-; split; [by left | intros ? ? ?; congruence]
     | injection H as <- <-; split; [by left | intros ? ? ?; congruence]].
  rewrite bind_run in H.
  match type of H with
  | (let (_, _) := py_open audio ?w0 in _) = _ =>
      destruct (py_open audio w0) as [oa wa] eqn:Ea
  end.
  pose proof Ea as Ha.
  apply py_open_inv in Ha as (Hta & Hra & _ & Hoa).
  cbn [trace responses next_file] in Hta, Hra.
  destruct Hoa as [Hne | (p & -> & Hop & Hnx & Hname)].
  { assert ((∀ v, o ≠ Return v) ∧ w' = wa) as [Hno ->].
    { destruct oa as [n|e|]; [by destruct (Hne n)|..];
        by injection H as <- <-. }
    split; [by left|]. intros ? p _ -> [c Hp].
    unfold py_open in Ea. cbn [files] in Ea. rewrite Hp in Ea.
    injection Ea as Ea _. by destruct (Hne _ (eq_sym Ea)). }
  cbn [open_files next_file] in Hop, Hnx.
  rewrite bind_run in H.
  match type of H with
  | (let (_, _) := ?m ?w0 in _) = _ =>
      destruct (m w0) as [ofs w1] eqn:Et
  end.
  assert (trace w1 = trace w ++ [post_call audio lang text cb nt ne]
          ∧ responses w1 = responses w
          ∧ open_files w1 !! next_file w = Some p
          ∧ ((∀ fs, ofs ≠ Return fs) ∨ (∃ fs, ofs = Return fs)))
    as (Ht & Hr & Ho & Hofs).
  { destruct (truthy text).
    - rewrite bind_run in Et.
      destruct (py_open text wa) as [og w2] eqn:Eg.
      apply py_open_inv in Eg as (Ht & Hr & Ho & Hog).
      destruct og as [g|e|]; injection Et as <- <-;
        (split_and!;
         [by rewrite Ht, Hta|by rewrite Hr, Hra|by rewrite Ho by lia|]);
        [right; eauto|by left..].
    - injection Et as <- <-. split_and!; eauto. }
  destruct Hofs as [Hne|[fs ->]].
  { assert ((∀ v, o ≠ Return v) ∧ w' = w1) as [Hno ->].
    { destruct ofs as [fs|e|]; [by destruct (Hne fs)|..];
        by injection H as <- <-. }
    split; [by left|]. intros ? q _ Hq _. by rewrite <- (Hname q Hq). }
  rewrite bind_run in H. unfold lift at 1 in H.
  destruct (SpeechmaticsClient.model_data lang) as [data0|e|] eqn:Ed;
    [| injection H as <- <-; split;
       [by left | intros ? q _ Hq _; by rewrite <- (Hname q Hq)]
     | exfalso ].
  2:{ clear -Ed. unfold SpeechmaticsClient.model_data, unpack2 in Ed.
      destruct lang; try done; repeat case_match; done. }
  rewrite bind_run in H. unfold http at 1 in H.
  split; [right | intros ? q _ Hq _; rewrite <- (Hname q Hq)].
  - exists url, fs, data0. unfold next_result. rewrite <- Hr.
    destruct (responses w1) as [|r rs]; injection H as <- <-; simpl;
      rewrite Ht, <- app_assoc; done.
  - destruct (responses w1); injection H as <- <-; done.
Qed.

Lemma job_details_run self job_id w :
  SpeechmaticsClient.job_details self job_id w =
  match SpeechmaticsClient.details_url self job_id with
  | Return url =>
      (next_result SpeechmaticsClient.job_details_result w,
       advance w (tl (responses w))
         [EvCall "job_details" [job_id];
          EvGet url
            {[ "auth_token"%string := SpeechmaticsClient.api_token self ]}])
  | Raise e => (Raise e, advance w (responses w) [EvCall "job_details" [job_id]])
  | Starved => (Starved, advance w (responses w) [EvCall "job_details" [job_id]])
  end.
Proof.
  unfold SpeechmaticsClient.job_details, next_result, advance.
  rewrite bind_run. unfold emit at 1. cbv beta iota.
  rewrite bind_run. unfold lift at 1.
  destruct (SpeechmaticsClient.details_url self job_id) as [url|e|];
    try reflexivity.
  rewrite bind_run. unfold http. cbn [responses trace files open_files next_file].
  rewrite <- app_assoc. by destruct (responses w).
Qed.

Lemma get_output_run self job_id frmat job_type w :
  SpeechmaticsClient.get_output self job_id frmat job_type w =
  match SpeechmaticsClient.output_url self job_id job_type with
  | Return url =>
      (next_result SpeechmaticsClient.get_output_result w,
       advance w (tl (responses w))
         [EvCall "get_output" [job_id; frmat; job_type];
          EvGet url (SpeechmaticsClient.output_params self frmat job_type)])
  | Raise e =>
      (Raise e,
       advance w (responses w) [EvCall "get_output" [job_id; frmat; job_type]])
  | Starved =>
      (Starved,
       advance w (responses w) [EvCall "get_output" [job_id; frmat; job_type]])
  end.
Proof.
  unfold SpeechmaticsClient.get_output, next_result, advance.
  rewrite bind_run. unfold emit at 1. cbv beta iota.
  rewrite bind_run. unfold lift at 1.
  destruct (SpeechmaticsClient.output_url self job_id job_type) as [url|e|];
    try reflexivity.
  rewrite bind_run. unfold http. cbn [responses trace files open_files next_file].
  rewrite <- app_assoc. by destruct (responses w).
Qed.

Lemma post_hint_other (c : Z) :
  c ∉ post_codes → SpeechmaticsClient.post_hint c = EmptyString.
Proof.
  intros H. unfold SpeechmaticsClient.post_hint.
  repeat match goal with
         | |- context [?x =? ?k] =>
             destruct (Z.eqb_spec x k) as [->|_];
             [exfalso; apply H; unfold post_codes; repeat constructor|]
         end.
  reflexivity.
Qed.

Lemma post_hints_distinct :
  NoDup (SpeechmaticsClient.post_hint <$> post_codes)
  ∧ Forall (λ c, SpeechmaticsClient.post_hint c ≠ EmptyString) post_codes.
Proof.
  split; apply (bool_decide_unpack _); by vm_compute.
Qed.

Lemma get_err_msg_lines (code : Z) :
  SpeechmaticsClient.get_err_msg code =
  unlines ["Attempt to GET job details failed with code " +:+ pretty code;
           support_line].
Proof. reflexivity. Qed.

Lemma post_err_msg_other (code : Z) :
  code ∉ post_codes →
  SpeechmaticsClient.post_err_msg code =
  unlines ["Attempt to POST job failed with code " +:+ pretty code;
           EmptyString; support_line].
Proof.
  intros H. unfold SpeechmaticsClient.post_err_msg.
  rewrite (post_hint_other _ H). reflexivity.
Qed.

(** C4.  A response whose status is not 200, taken by [job_post],
    [job_details] or [get_output], makes the operation raise
    [SpeechmaticsError].  The message of [job_details] and [get_output]
    names the code and the support address.  The message of [job_post] names
    the code and, for each of 400, 401, 403, 429 and 503, the common causes
    of that code, each text being written out here; for any other code it
    has an empty line in their place. *)
Theorem C4_non_200_is_SpeechmaticsError
    (self : SpeechmaticsClient.t) (w : world) (r : response)
    (rs : list response) :
  responses w = r :: rs → status_code r ≠ 200 →
  (∀ audio lang text cb nt ne o w',
     SpeechmaticsClient.job_post self audio lang text cb nt ne w = (o, w') →
     responses w' = rs →
     o = Raise (SpeechmaticsError
                  (SpeechmaticsClient.post_err_msg (status_code r)) 1))
  ∧ (∀ job_id o w',
       SpeechmaticsClient.job_details self job_id w = (o, w') →
       responses w' = rs →
       o = Raise (SpeechmaticsError
                    (unlines ["Attempt to GET job details failed with code "
                              +:+ pretty (status_code r); support_line]) 1))
  ∧ (∀ job_id frmat job_type o w',
       SpeechmaticsClient.get_output self job_id frmat job_type w = (o, w') →
       responses w' = rs →
       o = Raise (SpeechmaticsError
                    (unlines ["Attempt to GET job details failed with code "
                              +:+ pretty (status_code r); support_line]) 1))
  ∧ SpeechmaticsClient.post_err_msg 400 =
      unlines ["Attempt to POST job failed with code 400";
               "Common causes of this error are:";
               "Malformed arguments";
               "Missing data file";
               "Absent / unsupported language selection.";
               support_line]
  ∧ SpeechmaticsClient.post_err_msg 401 =
      unlines ["Attempt to POST job failed with code 401";
               "Common causes of this error are:";
               "Invalid user id or authentication token.";
               support_line]
  ∧ SpeechmaticsClient.post_err_msg 403 =
      unlines ["Attempt to POST job failed with code 403";
               "Common causes of this error are:";
               "Insufficient credit";
               "User id not in our database";
               "Incorrect authentication token.";
               support_line]
  ∧ SpeechmaticsClient.post_err_msg 429 =
      unlines ["Attempt to POST job failed with code 429";
               "Common causes of this error are:";
               "You are submitting too many POSTs in a short period of time.";
               support_line]
  ∧ SpeechmaticsClient.post_err_msg 503 =
      unlines ["Attempt to POST job failed with code 503";
               "Common causes of this error are:";
               "The system is temporarily unavailable or overloaded.";
               "Your POST will typically succeed if you try again soon.";
               support_line]
  ∧ (∀ code, code ∉ post_codes →
       SpeechmaticsClient.post_err_msg code =
       unlines ["Attempt to POST job failed with code " +:+ pretty code;
                EmptyString; support_line])
  ∧ NoDup (SpeechmaticsClient.post_err_msg <$> post_codes)
  ∧ NoDup (SpeechmaticsClient.post_hint <$> post_codes)
  ∧ Forall (λ c, SpeechmaticsClient.post_hint c ≠ EmptyString) post_codes
  ∧ (∀ c, c ∉ post_codes → SpeechmaticsClient.post_hint c = EmptyString).
Proof.
  intros Hw Hr. apply Z.eqb_neq in Hr.
  split_and!.
  - intros audio lang text cb nt ne o w' H Hrs.
    apply job_post_inv in H
      as [[(_ & Hr' & _)|(url & fs & d & _ & _ & _ & _ & ->)] _].
    + rewrite Hw, Hrs in Hr'. by destruct (cons_ne_tail r rs).
    + unfold next_result. rewrite Hw.
      unfold SpeechmaticsClient.job_post_result. by rewrite Hr.
  - intros job_id o w' H Hrs. rewrite job_details_run in H.
    destruct (SpeechmaticsClient.details_url self job_id);
      injection H as <- <-; simpl in Hrs;
      try (rewrite Hw in Hrs; by destruct (cons_ne_tail r rs)).
    unfold next_result, SpeechmaticsClient.job_details_result.
    by rewrite Hw, Hr, get_err_msg_lines.
  - intros job_id frmat job_type o w' H Hrs. rewrite get_output_run in H.
    destruct (SpeechmaticsClient.output_url self job_id job_type);
      injection H as <- <-; simpl in Hrs;
      try (rewrite Hw in Hrs; by destruct (cons_ne_tail r rs)).
    unfold next_result, SpeechmaticsClient.get_output_result.
    by rewrite Hw, Hr, get_err_msg_lines.
  - by vm_compute.
  - by vm_compute.
  - by vm_compute.
  - by vm_compute.
  - by vm_compute.
  - apply post_err_msg_other.
  - apply (bool_decide_unpack _). by vm_compute.
  - apply post_hints_distinct.
  - apply post_hints_distinct.
  - apply post_hint_other.
Qed.

(** The code 418 at submission: [SpeechmaticsError] with the message that
    has an empty line for the causes. *)
Lemma C4_non_200_is_SpeechmaticsError_witness :
  fst (SpeechmaticsClient.job_post client_u1 (VStr "a.mp3") (VStr "en-US")
         VNone VNone VNone VNone (world_of (VDict config_u1) [failed 418]))
  = Raise (SpeechmaticsError
             (unlines ["Attempt to POST job failed with code 418";
                       EmptyString; support_line]) 1).
Proof.
  refine (proj1 (C4_non_200_is_SpeechmaticsError client_u1
            (world_of (VDict config_u1) [failed 418]) (failed 418) [] _ _)
            (VStr "a.mp3") (VStr "en-US") VNone VNone VNone VNone _
            (snd (SpeechmaticsClient.job_post client_u1 (VStr "a.mp3")
                    (VStr "en-US") VNone VNone VNone VNone
                    (world_of (VDict config_u1) [failed 418]))) _ _).
  - reflexivity.
  - vm_compute. discriminate.
  - apply surjective_pairing.
  - vm_compute. reflexivity.
Defined.

Lemma split1_found (c : ascii) (s : string) :
  str_contains c s = true →
  ∃ m v, split1 c s = [m; v] ∧ s = m +:+ String c v
         ∧ str_contains c m = false.
Proof.
  induction s as [|a s IH]; simpl; [done|].
  destruct (Ascii.eqb a c) eqn:E.
  - intros _. apply Ascii.eqb_eq in E as ->. by exists EmptyString, s.
  - intros H. destruct (IH H) as (m & v & -> & -> & Hm).
    exists (String a m), v. simpl. by rewrite E.
Qed.

Lemma model_data_split (s : string) :
  str_contains "=" s = true →
  ∃ m v, s = m +:+ "=" +:+ v ∧ str_contains "=" m = false
         ∧ SpeechmaticsClient.model_data (VStr s) =
           Return (<["version"%string := VStr v]>
                     (<["model"%string := VStr m]>
                        {[ "model"%string := VStr s ]})).
Proof.
  intros H. destruct (split1_found _ _ H) as (m & v & Hsp & Hs & Hm).
  exists m, v. split_and!; [done..|].
  unfold SpeechmaticsClient.model_data. by rewrite H, Hsp.
Qed.

Lemma model_data_whole (s : string) :
  str_contains "=" s = false →
  SpeechmaticsClient.model_data (VStr s) = Return {[ "model"%string := VStr s ]}.
Proof. intros H. unfold SpeechmaticsClient.model_data. by rewrite H. Qed.

Lemma notify_data_lookup cb nt ne (data : gmap string pyval) (k : string) :
  k = "model"%string ∨ k = "version"%string →
  SpeechmaticsClient.notify_data cb nt ne data !! k = data !! k.
Proof.
  intros Hk. unfold SpeechmaticsClient.notify_data.
  repeat case_match; rewrite ?lookup_insert_ne; try done;
    destruct Hk as [-> | ->]; done.
Qed.

(** C5.  In the POST that [job_post] makes for a language string, the form
    field [model] is the part before the first ['='] and the field [version]
    the part after it when the string has an ['=']; otherwise [model] is the
    whole string and there is no field [version]. *)
Theorem C5_language_split_at_first_equals
    self audio (s : string) text cb nt ne w o w' url data fs params :
  SpeechmaticsClient.job_post self audio (VStr s) text cb nt ne w = (o, w') →
  trace w' = trace w ++ [post_call audio (VStr s) text cb nt ne;
                         EvPost url data fs params] →
  (str_contains "=" s = true →
   ∃ m v, s = m +:+ "=" +:+ v ∧ str_contains "=" m = false
          ∧ data !! "model"%string = Some (VStr m)
          ∧ data !! "version"%string = Some (VStr v))
  ∧ (str_contains "=" s = false →
     data !! "model"%string = Some (VStr s)
     ∧ data !! "version"%string = None).
Proof.
  intros H Ht.
  apply job_post_inv in H
    as [[(_ & _ & Ht')|(url' & fs' & d & _ & Hd & Ht' & _)] _];
    rewrite Ht in Ht'; apply app_inv_head in Ht'; [done|].
  injection Ht' as _ -> _ _. split.
  - intros Hc. destruct (model_data_split _ Hc) as (m & v & Hs & Hm & Hd').
    rewrite Hd in Hd'. injection Hd' as ->. exists m, v.
    rewrite !notify_data_lookup by auto. split_and!; [done..| |].
    + by rewrite lookup_insert_ne, lookup_insert_eq.
    + by rewrite lookup_insert_eq.
  - intros Hc. rewrite (model_data_whole _ Hc) in Hd. injection Hd as <-.
    rewrite !notify_data_lookup by auto. split.
    + by rewrite lookup_singleton_eq.
    + by rewrite lookup_singleton_ne.
Qed.

(** The language ["en=v=2"] is sent as the model ["en"] and the version
    ["v=2"]. *)
Lemma C5_language_split_at_first_equals_witness :
  ∃ m v, "en=v=2"%string = m +:+ "=" +:+ v ∧ str_contains "=" m = false
         ∧ data_en_v2 !! "model"%string = Some (VStr m)
         ∧ data_en_v2 !! "version"%string = Some (VStr v).
Proof.
  refine (proj1 (C5_language_split_at_first_equals client_u1 (VStr "a.mp3")
            "en=v=2" VNone VNone VNone VNone
            (world_of (VDict config_u1) [submitted (VStr "42")])
            _ _ _ data_en_v2 _ _ _ _) _).
  - apply surjective_pairing.
  - vm_compute. reflexivity.
  - vm_compute. reflexivity.
Defined.

(** The audio file that [job_post] opens is open when [job_post] ends,
    however it ends. *)
Lemma job_post_leaves_audio_open
    self (p : string) lang text cb nt ne w o w' url :
  SpeechmaticsClient.job_post self (VStr p) lang text cb nt ne w = (o, w') →
  SpeechmaticsClient.jobs_url self = Return url →
  is_Some (files w !! p) →
  open_files w' !! next_file w = Some p.
Proof. intros H Hu Hp. apply job_post_inv in H as [_ H]. eauto. Qed.

(** C9 fails on the code.  [job_post] opens its files without a [with]
    block and never closes them: after a submission that succeeds the audio
    and the text file are both open, after one that the service refuses
    (503) too, and when the text file cannot be opened the audio file stays
    open. *)
Theorem C9_job_post_leaves_files_open :
  let w := world_of (VDict config_u1) [submitted (VStr "42")] in
  let w503 := world_of (VDict config_u1) [failed 503] in
  let post text w :=
    SpeechmaticsClient.job_post client_u1 (VStr "a.mp3") (VStr "en-US")
      (VStr text) VNone VNone VNone w in
  fst (post "a.txt"%string w) = Return (VStr "42")
  ∧ open_files (snd (post "a.txt"%string w))
    = {[ 0%nat := "a.mp3"%string; 1%nat := "a.txt"%string ]}
  ∧ fst (post "a.txt"%string w503)
    = Raise (SpeechmaticsError (SpeechmaticsClient.post_err_msg 503) 1)
  ∧ open_files (snd (post "a.txt"%string w503))
    = {[ 0%nat := "a.mp3"%string; 1%nat := "a.txt"%string ]}
  ∧ fst (post "missing.txt"%string w) = Raise IOError
  ∧ open_files (snd (post "missing.txt"%string w))
    = {[ 0%nat := "a.mp3"%string ]}.
Proof. vm_compute. repeat split; reflexivity. Qed.

(** * The polling loop *)

Section Polling.

Variables (uid : string) (token job_id : pyval).

Let client := SpeechmaticsClient.init (VStr uid) token.











End Polling.




(** * What the client is asked after the submission *)

Section Emits.

Context (P : event → Prop).

Lemma emits_only_bind {A B} (m : M A) (f : A → M B) :
  emits_only P m → (∀ a, emits_only P (f a)) → emits_only P (m ≫= f).
Proof.
  intros Hm Hf w o w'. rewrite bind_run.
  destruct (m w) as [[a|e|] w1] eqn:Em;
    destruct (Hm _ _ _ Em) as (l1 & Ht1 & Hl1).
  - intros Ef. destruct (Hf _ _ _ _ Ef) as (l2 & Ht2 & Hl2).
    exists (l1 ++ l2). split; [by rewrite Ht2, Ht1, app_assoc|].
    by apply Forall_app.
  - intros [= <- <-]. eauto.
  - intros [= <- <-]. eauto.
Qed.

Lemma emits_only_pure {A} (f : world → outcome A) :
  emits_only P (λ w, (f w, w)).
Proof. intros w o w' [= <- <-]. exists []. by rewrite app_nil_r. Qed.

Lemma emits_only_lift {A} (o : outcome A) : emits_only P (lift o).
Proof. apply (emits_only_pure (λ _, o)). Qed.

Lemma emits_only_mret {A} (a : A) : emits_only P (mret a).
Proof. apply (emits_only_pure (λ _, Return a)). Qed.

End Emits.

Section Identifier.

Variables (config : SpeechmaticsConfig.t) (client : SpeechmaticsClient.t).
Variable job_id : pyval.

Lemma item_Lit v p : item v = Some p → ∃ s, p = Lit s.
Proof. destruct v; intros [= <-]; eauto. Qed.

Lemma details_url_ids url :
  SpeechmaticsClient.details_url client job_id = Return url →
  url_ids url = [job_id].
Proof.
  unfold SpeechmaticsClient.details_url. simpl.
  destruct (item (SpeechmaticsClient.base_url client)) as [p|] eqn:Eb; [|done].
  destruct (item (SpeechmaticsClient.api_user_id client)) as [q|] eqn:Eu;
    [|done].
  apply item_Lit in Eb as [? ->]. apply item_Lit in Eu as [? ->].
  by intros [= <-].
Qed.

Lemma output_url_ids kind url :
  SpeechmaticsClient.output_url client job_id kind = Return url →
  url_ids url = [job_id].
Proof.
  unfold SpeechmaticsClient.output_url. simpl.
  destruct (item (SpeechmaticsClient.base_url client)) as [p|] eqn:Eb; [|done].
  destruct (item (SpeechmaticsClient.api_user_id client)) as [q|] eqn:Eu;
    [|done].
  destruct (item kind) as [k|] eqn:Ek; [|done].
  apply item_Lit in Eb as [? ->]. apply item_Lit in Eu as [? ->].
  apply item_Lit in Ek as [? ->].
  by intros [= <-].
Qed.

Lemma follows_job_details :
  emits_only (follows job_id) (SpeechmaticsClient.job_details client job_id).
Proof.
  intros w o w'. rewrite job_details_run.
  destruct (SpeechmaticsClient.details_url client job_id) as [url|e|] eqn:Eu;
    intros [= <- <-]; eexists; (split; [reflexivity|]);
    repeat (apply Forall_cons_2 || apply Forall_nil_2); simpl;
    eauto using details_url_ids.
Qed.

Lemma follows_get_output frmat kind :
  emits_only (follows job_id)
    (SpeechmaticsClient.get_output client job_id frmat kind).
Proof.
  intros w o w'. rewrite get_output_run.
  destruct (SpeechmaticsClient.output_url client job_id kind)
    as [url|e|] eqn:Eu;
    intros [= <- <-]; eexists; (split; [reflexivity|]);
    repeat (apply Forall_cons_2 || apply Forall_nil_2); simpl;
    eauto 10 using output_url_ids.
Qed.

Lemma follows_sleep v : emits_only (follows job_id) (sleep v).
Proof.
  unfold sleep.
  destruct v as [|b|n| | |]; try apply emits_only_lift.
  - intros w o w' [= <- <-]. eexists. split; [reflexivity|].
    by repeat constructor.
  - destruct (_ || _); [apply emits_only_lift|].
    destruct (n <? 0); [apply emits_only_lift|].
    intros w o w' [= <- <-]. eexists. split; [reflexivity|].
    by repeat constructor.
Qed.

Lemma follows_poll fuel :
  ∀ details,
    emits_only (follows job_id)
      (SpeechmaticsSpeechToText.poll fuel client job_id details).
Proof.
  induction fuel as [|fuel IH]; intros details; simpl;
    (apply emits_only_bind; [apply emits_only_lift|]); intros status;
    (destruct (SpeechmaticsSpeechToText.terminal status);
     [apply emits_only_mret|]).
  - apply emits_only_lift.
  - apply emits_only_bind; [apply emits_only_lift|]. intros wait_s.
    apply emits_only_bind; [apply follows_sleep|]. intros _.
    apply emits_only_bind; [apply follows_job_details|]. apply IH.
Qed.

Lemma follows_fetch_output details :
  emits_only (follows job_id)
    (SpeechmaticsSpeechToText.fetch_output config client job_id details).
Proof.
  unfold SpeechmaticsSpeechToText.fetch_output.
  apply emits_only_bind; [apply emits_only_lift|]. intros status.
  destruct (eq_str status _); [apply emits_only_lift|].
  apply emits_only_bind; [apply emits_only_lift|]. intros status'.
  destruct (eq_str status' _); [apply emits_only_lift|].
  apply emits_only_bind; [apply emits_only_lift|]. intros [kind|];
    [|apply emits_only_lift].
  apply emits_only_bind; [apply follows_get_output|]. intros output.
  apply emits_only_mret.
Qed.

Lemma follows_poll_and_fetch :
  emits_only (follows job_id)
    (SpeechmaticsSpeechToText.poll_and_fetch config client job_id).
Proof.
  unfold SpeechmaticsSpeechToText.poll_and_fetch.
  apply emits_only_bind; [apply follows_job_details|]. intros details.
  apply emits_only_bind;
    [apply (emits_only_pure _ (λ w, Return (S (length (responses w)))))|].
  intros fuel.
  apply emits_only_bind; [apply follows_poll|]. apply follows_fetch_output.
Qed.

End Identifier.

(** * The orchestrator *)

Section Run.

Variables (full_path : pyval) (w : world).
Variables (config : SpeechmaticsConfig.t) (w1 : world).
Variables (job_id : pyval) (w2 : world).

(** The configuration was loaded and the job submitted, with [job_id] for
    the identifier. *)
Hypothesis Hcfg :
  SpeechmaticsConfig.from_json CONFIG_FILE w = (Return config, w1).
Hypothesis Hpost :
  SpeechmaticsSpeechToText.submit config full_path w1 = (Return job_id, w2).

Lemma transcript_audio_submitted :
  SpeechmaticsSpeechToText.transcript_audio full_path w =
  SpeechmaticsSpeechToText.poll_and_fetch config
    (SpeechmaticsSpeechToText.client_of config) job_id w2.
Proof.
  unfold SpeechmaticsSpeechToText.transcript_audio. rewrite bind_run, Hcfg.
  rewrite bind_run. by rewrite Hpost.
Qed.



Lemma submitted_response :
  ∃ r, head (responses w1) = Some r
       ∧ SpeechmaticsClient.job_post_result r = Return job_id.
Proof.
  apply job_post_inv in Hpost
    as [[(Hne & _)|(url & fs & d & _ & _ & _ & _ & Hr)] _];
    [by destruct (Hne job_id)|].
  unfold next_result in Hr. destruct (responses w1) as [|r rs]; [done|].
  by exists r.
Qed.



(** C6.  The identifier that the submission returned, which is the [id] of
    the response to the POST, is the one in every later call of
    [job_details] and [get_output] and in the URL of every later request,
    however the run ends. *)
Theorem C6_job_id_round_trip o w' :
  SpeechmaticsSpeechToText.transcript_audio full_path w = (o, w') →
  (∃ r, head (responses w1) = Some r
        ∧ SpeechmaticsClient.job_post_result r = Return job_id)
  ∧ ∃ later, trace w' = trace w2 ++ later ∧ Forall (follows job_id) later.
Proof.
  rewrite transcript_audio_submitted. intros Hrun.
  split; [apply submitted_response|].
  by eapply follows_poll_and_fetch.
Qed.



End Run.

(** * The runs of the samples *)

(** The scenario of the specification from end to end: the job ["7"] is
    done at the first fetch and its transcript comes back as bytes. *)
Example transcript_audio_hello_world :
  fst (SpeechmaticsSpeechToText.transcript_audio (VStr "a.mp3")
         (world_of (VDict config_u1) script_done))
  = Return (list_byte_of_string "hello world")
  ∧ trace (snd (SpeechmaticsSpeechToText.transcript_audio (VStr "a.mp3")
                  (world_of (VDict config_u1) script_done)))
    = trace (snd (SpeechmaticsSpeechToText.submit config_u1_loaded
                    (VStr "a.mp3")
                    (loaded (world_of (VDict config_u1) script_done))))
      ++ details_events "u1" (VStr "t1") (VStr "7")
      ++ output_events "u1" (VStr "t1") (VStr "7") (VStr "txt") "transcript".
Proof. vm_compute. split; reflexivity. Qed.




(** The identifier ["42"] of the submission is the one of all that
    follows. *)
Lemma C6_job_id_round_trip_witness :
  ∃ later,
    trace (snd (SpeechmaticsSpeechToText.transcript_audio (VStr "a.mp3")
                  (world_of (VDict config_u1) script_waits)))
    = trace (posted (world_of (VDict config_u1) script_waits)) ++ later
    ∧ Forall (follows (VStr "42")) later.
Proof.
  exact (proj2 (C6_job_id_round_trip (VStr "a.mp3")
                  (world_of (VDict config_u1) script_waits) config_u1_loaded
                  (loaded (world_of (VDict config_u1) script_waits))
                  (VStr "42")
                  (posted (world_of (VDict config_u1) script_waits))
                  ltac:(vm_compute; reflexivity)
                  ltac:(vm_compute; reflexivity)
                  _ _ (surjective_pairing _))).
Defined.



(** * Further properties of the program *)

(** ** Waiting, and fetches that fail *)

Section Waiting.

Variables (uid : string) (token job_id : pyval).



End Waiting.




Section Failures.

Variables (full_path : pyval) (w : world).
Variables (config : SpeechmaticsConfig.t) (w1 : world).
Variables (job_id : pyval) (w2 : world).

Hypothesis Hcfg :
  SpeechmaticsConfig.from_json CONFIG_FILE w = (Return config, w1).
Hypothesis Hpost :
  SpeechmaticsSpeechToText.submit config full_path w1 = (Return job_id, w2).




End Failures.

(** * The client: what is sent *)

Lemma jobs_url_init uid token :
  SpeechmaticsClient.jobs_url (SpeechmaticsClient.init (VStr uid) token) =
  Return [Lit SpeechmaticsClient.default_base_url; Lit "/user/"; Lit uid;
          Lit "/jobs/"].
Proof. reflexivity. Qed.

(** X8.  The query of [get_output].  It always carries the token; it asks for
    plain text ([format=txt]) exactly for a format that is given and the kind
    ['transcript'], and for one tag per line ([tags=one_per_line]) exactly
    for a format that is given and the kind ['alignment']; never for both,
    and without a format for neither. *)
Theorem get_output_params self job_id frmat job_type w o w' url params :
  SpeechmaticsClient.get_output self job_id frmat job_type w = (o, w') →
  trace w' = trace w ++ [EvCall "get_output" [job_id; frmat; job_type];
                         EvGet url params] →
  params !! "auth_token"%string = Some (SpeechmaticsClient.api_token self)
  ∧ params !! "format"%string =
      (if truthy frmat && eq_str job_type "transcript"
       then Some (VStr "txt") else None)
  ∧ params !! "tags"%string =
      (if truthy frmat && eq_str job_type "alignment"
       then Some (VStr "one_per_line") else None)
  ∧ (params !! "format"%string = None ∨ params !! "tags"%string = None)
  ∧ (truthy frmat = false →
     params = {[ "auth_token"%string := SpeechmaticsClient.api_token self ]}).
Proof.
  intros H Ht. rewrite get_output_run in H.
  destruct (SpeechmaticsClient.output_url self job_id job_type);
    injection H as <- <-; cbn [trace advance] in Ht;
    apply app_inv_head in Ht; try discriminate Ht.
  injection Ht as <- <-.
  unfold SpeechmaticsClient.output_params.
  assert (∀ k : string, k ≠ "transcript"%string ∨ k ≠ "alignment"%string)
    as Hk by (intros k; destruct (decide (k = "transcript"%string));
              [right; congruence | by left]).
  destruct (truthy frmat); cbn [andb]; [destruct job_type; cbn [eq_str]|].
  all: try match goal with
           | |- context [bool_decide (?k = "transcript"%string)] =>
               pose proof (Hk k); repeat case_bool_decide; try tauto
           end.
  all: (split_and!;
     [ rewrite ?lookup_insert_ne by done; by rewrite lookup_singleton_eq
     | rewrite ?lookup_insert_eq, ?lookup_insert_ne by done; done
     | rewrite ?lookup_insert_eq, ?lookup_insert_ne by done; done
     | first [ by left | by right ]
     | done ]).
Qed.

Section Submission.

Variables (uid : string) (token : pyval).
Variables (p : string) (lang text cb nt ne : pyval) (w : world).

Lemma job_post_opened c :
  files w !! p = Some c →
  SpeechmaticsClient.job_post (SpeechmaticsClient.init (VStr uid) token)
    (VStr p) lang text cb nt ne w =
  ((if truthy text
    then py_open text
         ≫= λ g, mret (<["text_file"%string := g]>
                         ({[ "data_file"%string := next_file w ]}
                            : gmap string nat))
    else mret {[ "data_file"%string := next_file w ]})
   ≫= λ fs,
     lift (SpeechmaticsClient.model_data lang)
     ≫= λ data,
       http (EvPost [Lit SpeechmaticsClient.default_base_url; Lit "/user/";
                     Lit uid; Lit "/jobs/"]
               (SpeechmaticsClient.notify_data cb nt ne data) fs
               {[ "auth_token"%string := token ]})
       ≫= λ request, lift (SpeechmaticsClient.job_post_result request))
    {| files := files w;
       open_files := <[next_file w := p]> (open_files w);
       next_file := S (next_file w);
       responses := responses w;
       trace := trace w ++ [post_call (VStr p) lang text cb nt ne] |}.
Proof.
  intros Hp. unfold SpeechmaticsClient.job_post.
  rewrite bind_run. unfold emit at 1. cbv beta iota.
  rewrite bind_run. unfold lift at 1. rewrite jobs_url_init.
  rewrite bind_run. unfold py_open at 1.
  cbn [files open_files next_file responses trace]. rewrite Hp.
  reflexivity.
Qed.

(** X3.  The files of the upload.  Without a text, the request carries the
    audio file alone and no second file is opened; with a text that can be
    opened, it carries both, the text under [text_file]. *)
Theorem job_post_uploads c d0 :
  files w !! p = Some c →
  SpeechmaticsClient.model_data lang = Return d0 →
  (truthy text = false →
   SpeechmaticsClient.job_post (SpeechmaticsClient.init (VStr uid) token)
     (VStr p) lang text cb nt ne w =
   (next_result SpeechmaticsClient.job_post_result w,
    {| files := files w;
       open_files := <[next_file w := p]> (open_files w);
       next_file := S (next_file w);
       responses := tl (responses w);
       trace := trace w ++
         [post_call (VStr p) lang text cb nt ne;
          EvPost [Lit SpeechmaticsClient.default_base_url; Lit "/user/";
                  Lit uid; Lit "/jobs/"]
            (SpeechmaticsClient.notify_data cb nt ne d0)
            {[ "data_file"%string := next_file w ]}
            {[ "auth_token"%string := token ]}] |}))
  ∧ (∀ q c', text = VStr q → q ≠ EmptyString → files w !! q = Some c' →
     SpeechmaticsClient.job_post (SpeechmaticsClient.init (VStr uid) token)
       (VStr p) lang text cb nt ne w =
     (next_result SpeechmaticsClient.job_post_result w,
      {| files := files w;
         open_files :=
           <[S (next_file w) := q]> (<[next_file w := p]> (open_files w));
         next_file := S (S (next_file w));
         responses := tl (responses w);
         trace := trace w ++
           [post_call (VStr p) lang text cb nt ne;
            EvPost [Lit SpeechmaticsClient.default_base_url; Lit "/user/";
                    Lit uid; Lit "/jobs/"]
              (SpeechmaticsClient.notify_data cb nt ne d0)
              (<["text_file"%string := S (next_file w)]>
                 {[ "data_file"%string := next_file w ]})
              {[ "auth_token"%string := token ]}] |})).
Proof.
  intros Hp Hd. rewrite (job_post_opened _ Hp). split.
  - intros Ht. rewrite Ht. rewrite bind_run. cbv beta iota.
    unfold mret at 1, M_ret at 1. rewrite bind_run. unfold lift at 1.
    rewrite Hd. rewrite bind_run. unfold http, next_result.
    cbn [files open_files next_file responses trace].
    rewrite <- app_assoc. by destruct (responses w).
  - intros q c' Heq Hq Hfq. rewrite Heq. cbn [truthy].
    rewrite bool_decide_eq_false_2 by done. cbn [negb].
    rewrite !bind_run. unfold py_open at 1.
    cbn [files open_files next_file responses trace]. rewrite Hfq.
    unfold mret at 1, M_ret at 1. rewrite bind_run. unfold lift at 1.
    rewrite Hd. rewrite bind_run. unfold http, next_result.
    cbn [files open_files next_file responses trace].
    rewrite <- app_assoc. by destruct (responses w).
Qed.


(** X5.  A language that is a number, a truth value or [None]: [TypeError] at
    the test for ['='], after the audio file was opened and before any
    request. *)
Theorem job_post_language_not_text c :
  files w !! p = Some c → truthy text = false →
  lang = VNone ∨ (∃ b, lang = VBool b) ∨ (∃ n, lang = VInt n) →
  SpeechmaticsClient.job_post (SpeechmaticsClient.init (VStr uid) token)
    (VStr p) lang text cb nt ne w =
  (Raise TypeError,
   {| files := files w;
      open_files := <[next_file w := p]> (open_files w);
      next_file := S (next_file w);
      responses := responses w;
      trace := trace w ++ [post_call (VStr p) lang text cb nt ne] |}).
Proof.
  intros Hp Ht Hl. rewrite (job_post_opened _ Hp). rewrite Ht.
  rewrite bind_run. cbv beta iota. unfold mret at 1, M_ret at 1.
  rewrite bind_run. unfold lift at 1.
  by destruct Hl as [Hl | [[b Hl] | [n Hl]]]; rewrite Hl.
Qed.

End Submission.

(** A user identifier that is no string (a number of the configuration
    file, say) passes the validation of the configuration, and every
    operation of the client then raises [TypeError] when it joins its URL:
    no file is opened, no request made. *)
Lemma client_user_id_not_text (user_id token : pyval) (w : world) :
  (∀ s, user_id ≠ VStr s) →
  (∀ audio lang text cb nt ne,
     SpeechmaticsClient.job_post (SpeechmaticsClient.init user_id token)
       audio lang text cb nt ne w =
     (Raise TypeError,
      advance w (responses w) [post_call audio lang text cb nt ne]))
  ∧ (∀ job_id,
       SpeechmaticsClient.job_details (SpeechmaticsClient.init user_id token)
         job_id w =
       (Raise TypeError,
        advance w (responses w) [EvCall "job_details" [job_id]]))
  ∧ (∀ job_id frmat job_type,
       SpeechmaticsClient.get_output (SpeechmaticsClient.init user_id token)
         job_id frmat job_type w =
       (Raise TypeError,
        advance w (responses w)
          [EvCall "get_output" [job_id; frmat; job_type]])).
Proof.
  intros Hu.
  assert (item user_id = None) as Hi.
  { destruct user_id; try done. by destruct (Hu s). }
  split_and!.
  - intros. unfold SpeechmaticsClient.job_post.
    rewrite bind_run. unfold emit at 1. cbv beta iota.
    rewrite bind_run. unfold lift at 1.
    unfold SpeechmaticsClient.jobs_url. simpl. by rewrite Hi.
  - intros. rewrite job_details_run.
    unfold SpeechmaticsClient.details_url. simpl. by rewrite Hi.
  - intros. rewrite get_output_run.
    unfold SpeechmaticsClient.output_url. simpl. by rewrite Hi.
Qed.

Lemma model_data_keys lang d0 (k : string) :
  SpeechmaticsClient.model_data lang = Return d0 →
  k ≠ "model"%string → k ≠ "version"%string → d0 !! k = None.
Proof.
  unfold SpeechmaticsClient.model_data, unpack2. intros H Hm Hv.
  destruct lang; try done; repeat case_match; try done;
    injection H as <-;
    rewrite ?lookup_insert_ne by done; by rewrite lookup_singleton_ne.
Qed.

(** X6.  The notification fields of the submission.  [notification] is sent
    when it is given; [callback] is sent exactly when the notification is
    ['callback'], with whatever the callback URL is, [None] too;
    [notification_email_address] is sent when it is given, whatever the
    notification. *)
Theorem job_post_notification
    self audio lang text cb nt ne w o w' url data fs params :
  SpeechmaticsClient.job_post self audio lang text cb nt ne w = (o, w') →
  trace w' = trace w ++ [post_call audio lang text cb nt ne;
                         EvPost url data fs params] →
  data !! "notification"%string = (if truthy nt then Some nt else None)
  ∧ data !! "callback"%string =
      (if eq_str nt "callback" then Some cb else None)
  ∧ data !! "notification_email_address"%string =
      (if truthy ne then Some ne else None).
Proof.
  intros H Ht.
  apply job_post_inv in H
    as [[(_ & _ & Ht')|(url' & fs' & d & _ & Hd & Ht' & _)] _];
    rewrite Ht in Ht'; apply app_inv_head in Ht'; [done|].
  injection Ht' as _ -> _ _.
  pose proof (model_data_keys _ _ "notification" Hd) as H1.
  pose proof (model_data_keys _ _ "callback" Hd) as H2.
  pose proof (model_data_keys _ _ "notification_email_address" Hd) as H3.
  unfold SpeechmaticsClient.notify_data.
  assert (eq_str nt "callback" = true → truthy nt = true) as Hcb.
  { destruct nt; try done. simpl. intros ->%bool_decide_eq_true. done. }
  destruct (truthy nt) eqn:Ent; destruct (eq_str nt "callback") eqn:Ecb;
    destruct (truthy ne) eqn:Ene;
    try (by specialize (Hcb eq_refl));
    rewrite ?lookup_insert_eq, ?lookup_insert_ne by done;
    rewrite ?lookup_insert_eq, ?lookup_insert_ne by done;
    rewrite ?lookup_insert_eq, ?lookup_insert_ne by done;
    rewrite ?H1, ?H2, ?H3 by done; done.
Qed.

(** X7.  A response 200: [job_post] returns the field [id] and [job_details]
    the field [job] of its JSON body, with [ValueError] for a body that is
    no JSON, [TypeError] for one that is no object and [KeyError] for an
    object without the field; [get_output] returns the body as it is. *)
Theorem ok_response_is_read
    (self : SpeechmaticsClient.t) (w : world) (r : response)
    (rs : list response) :
  responses w = r :: rs → status_code r = 200 →
  (∀ audio lang text cb nt ne o w',
     SpeechmaticsClient.job_post self audio lang text cb nt ne w = (o, w') →
     responses w' = rs → o = json_field r "id")
  ∧ (∀ job_id o w',
       SpeechmaticsClient.job_details self job_id w = (o, w') →
       responses w' = rs → o = json_field r "job")
  ∧ (∀ job_id frmat job_type o w',
       SpeechmaticsClient.get_output self job_id frmat job_type w = (o, w') →
       responses w' = rs → o = Return (body r)).
Proof.
  intros Hw Hr.
  assert (∀ k, match json_loads r with
               | Return j => getitem j k
               | Raise e => Raise e
               | Starved => Starved
               end = json_field r k) as Hj.
  { intros k. unfold json_loads, json_field. destruct (json r) as [[]|]; done. }
  split_and!.
  - intros audio lang text cb nt ne o w' H Hrs.
    apply job_post_inv in H
      as [[(_ & Hr' & _)|(url & fs & d & _ & _ & _ & _ & ->)] _].
    + rewrite Hw, Hrs in Hr'. by destruct (cons_ne_tail r rs).
    + unfold next_result. rewrite Hw.
      unfold SpeechmaticsClient.job_post_result. rewrite Hr. apply Hj.
  - intros job_id o w' H Hrs. rewrite job_details_run in H.
    destruct (SpeechmaticsClient.details_url self job_id);
      injection H as <- <-; simpl in Hrs;
      try (rewrite Hw in Hrs; by destruct (cons_ne_tail r rs)).
    unfold next_result, SpeechmaticsClient.job_details_result.
    rewrite Hw, Hr. apply Hj.
  - intros job_id frmat job_type o w' H Hrs. rewrite get_output_run in H.
    destruct (SpeechmaticsClient.output_url self job_id job_type);
      injection H as <- <-; simpl in Hrs;
      try (rewrite Hw in Hrs; by destruct (cons_ne_tail r rs)).
    unfold next_result, SpeechmaticsClient.get_output_result.
    by rewrite Hw, Hr.
Qed.

(** * Loading the configuration: the file *)

(** X1.  Whatever [from_json] makes of the file, it leaves no file open and
    does nothing else to the world: no request, no event. *)
Theorem from_json_leaves_world file_name w o w' :
  open_files w !! next_file w = None →
  SpeechmaticsConfig.from_json file_name w = (o, w') →
  open_files w' = open_files w ∧ files w' = files w
  ∧ responses w' = responses w ∧ trace w' = trace w.
Proof.
  intros Hn. unfold SpeechmaticsConfig.from_json. rewrite bind_run.
  unfold py_open at 1.
  destruct (files w !! file_name) eqn:Hf;
    [|by destruct (str_contains _ _); intros [= <- <-]].
  rewrite bind_run. unfold with_file, json_load, py_close. simpl.
  rewrite lookup_insert_eq, Hf. unfold lift.
  destruct o0; intros [= <- <-]; simpl; by rewrite delete_insert_id.
Qed.


Lemma bind_Return_inv {A B} (m : M A) (f : A → M B) w b w' :
  (m ≫= f) w = (Return b, w') →
  ∃ a w1, m w = (Return a, w1) ∧ f a w1 = (Return b, w').
Proof.
  rewrite bind_run. destruct (m w) as [[a|e|] w1]; [eauto|done|done].
Qed.

Lemma bind_Raise_inv {A B} (m : M A) (f : A → M B) w e w' :
  (m ≫= f) w = (Raise e, w') →
  m w = (Raise e, w') ∨ ∃ a w1, m w = (Return a, w1) ∧ f a w1 = (Raise e, w').
Proof.
  rewrite bind_run. destruct (m w) as [[a|e0|] w1].
  - intros H. right. eauto.
  - intros [= -> ->]. by left.
  - intros H. discriminate H.
Qed.

(** * The loop ends on a terminal status *)

Lemma terminal_inv s :
  SpeechmaticsSpeechToText.terminal s = true →
  ∃ st, s = VStr st
        ∧ (st = "done" ∨ st = "expired" ∨ st = "unsupported_file_format"
           ∨ st = "could_not_align")%string.
Proof.
  unfold SpeechmaticsSpeechToText.terminal.
  destruct s as [| | |st| |]; try done. cbn [existsb eq_str].
  intros H. exists st. split; [done|].
  repeat case_bool_decide; auto. done.
Qed.

(** X9.  The details that the loop hands on have one of the four terminal
    statuses: ['done'], ['expired'], ['unsupported_file_format'] or
    ['could_not_align']. *)
Theorem poll_returns_terminal fuel client job_id :
  ∀ d w d' w',
    SpeechmaticsSpeechToText.poll fuel client job_id d w = (Return d', w') →
    ∃ st, getitem d' "job_status" = Return (VStr st)
          ∧ (st = "done" ∨ st = "expired" ∨ st = "unsupported_file_format"
             ∨ st = "could_not_align")%string.
Proof.
  induction fuel as [|fuel IH]; intros d w d' w'; simpl;
    intros (s & w1 & Hs & H)%bind_Return_inv;
    injection Hs as Hs <-;
    destruct (SpeechmaticsSpeechToText.terminal s) eqn:Ht.
  - injection H as <- <-. apply terminal_inv in Ht as (st & -> & Hst). eauto.
  - done.
  - injection H as <- <-. apply terminal_inv in Ht as (st & -> & Hst). eauto.
  - apply bind_Return_inv in H as (n & w2 & _ & H).
    apply bind_Return_inv in H as (u & w3 & _ & H).
    apply bind_Return_inv in H as (d1 & w4 & _ & H).
    by eapply IH.
Qed.

(** * What a run takes from the service *)

Lemma consumed_refl w : consumed w w.
Proof. by exists []. Qed.

Lemma consumed_trans w1 w2 w3 : consumed w1 w2 → consumed w2 w3 → consumed w1 w3.
Proof.
  intros [u1 H1] [u2 H2]. exists (u1 ++ u2). by rewrite H1, H2, app_assoc.
Qed.

Lemma consumed_same w w' : responses w' = responses w → consumed w w'.
Proof. intros H. exists []. by rewrite H. Qed.

Lemma consumed_tail w w' : responses w' = tl (responses w) → consumed w w'.
Proof.
  intros H. destruct (responses w) as [|r rs] eqn:E.
  - exists []. by rewrite H.
  - exists [r]. by rewrite H.
Qed.

Lemma keeps_consumed_bind {A B} (m : M A) (f : A → M B) :
  keeps consumed m → (∀ a, keeps consumed (f a)) → keeps consumed (m ≫= f).
Proof.
  intros Hm Hf w o w'. rewrite bind_run.
  destruct (m w) as [[a|e|] w1] eqn:Em; pose proof (Hm _ _ _ Em) as H1.
  - intros Ef. eapply consumed_trans; [done|]. by eapply Hf.
  - by intros [= <- <-].
  - by intros [= <- <-].
Qed.

Lemma keeps_consumed_pure {A} (f : world → outcome A) :
  keeps consumed (λ w, (f w, w)).
Proof. intros w o w' [= <- <-]. apply consumed_refl. Qed.

Lemma keeps_consumed_job_details client job_id :
  keeps consumed (SpeechmaticsClient.job_details client job_id).
Proof.
  intros w o w'. rewrite job_details_run.
  destruct (SpeechmaticsClient.details_url client job_id);
    intros [= <- <-]; [by apply consumed_tail|by apply consumed_same..].
Qed.

Lemma keeps_consumed_sleep v : keeps consumed (sleep v).
Proof.
  unfold sleep. destruct v as [|b|n| | |];
    try apply (keeps_consumed_pure (λ _, Raise TypeError)).
  - intros w o w' [= <- <-]. by apply consumed_same.
  - destruct (_ || _);
      [apply (keeps_consumed_pure (λ _, Raise OverflowError))|].
    destruct (n <? 0); [apply (keeps_consumed_pure (λ _, Raise ValueError))|].
    intros w o w' [= <- <-]. by apply consumed_same.
Qed.

Lemma keeps_consumed_poll fuel client job_id :
  ∀ d, keeps consumed (SpeechmaticsSpeechToText.poll fuel client job_id d).
Proof.
  induction fuel as [|fuel IH]; intros d; simpl;
    (apply keeps_consumed_bind; [apply (keeps_consumed_pure (λ _, _))|]);
    intros s; (destruct (SpeechmaticsSpeechToText.terminal s);
               [apply (keeps_consumed_pure (λ _, _))|]).
  - apply (keeps_consumed_pure (λ _, _)).
  - apply keeps_consumed_bind; [apply (keeps_consumed_pure (λ _, _))|].
    intros n. apply keeps_consumed_bind; [apply keeps_consumed_sleep|].
    intros _. apply keeps_consumed_bind; [apply keeps_consumed_job_details|].
    apply IH.
Qed.

Lemma keeps_consumed_job_post self audio lang text cb nt ne :
  keeps consumed
    (SpeechmaticsClient.job_post self audio lang text cb nt ne).
Proof.
  intros w o w' H.
  apply job_post_inv in H
    as [[(_ & Hr & _)|(url & fs & d & _ & _ & _ & Hr & _)] _].
  - by apply consumed_same.
  - by apply consumed_tail.
Qed.

(** What [fetch_output] returns are the bytes of the body of the response
    it took, and that response was 200. *)
Lemma fetch_output_Return_inv config client job_id d w b w' :
  SpeechmaticsSpeechToText.fetch_output config client job_id d w
  = (Return b, w') →
  ∃ r, responses w = r :: responses w' ∧ status_code r = 200
       ∧ b = list_byte_of_string (body r).
Proof.
  unfold SpeechmaticsSpeechToText.fetch_output.
  intros (s & w1 & [= Hs <-] & H)%bind_Return_inv.
  destruct (eq_str s "unsupported_file_format"); [done|].
  apply bind_Return_inv in H as (s' & w1 & [= Hs' <-] & H).
  destruct (eq_str s' "could_not_align"); [done|].
  apply bind_Return_inv in H as (k & w1 & [= Hk <-] & H).
  destruct k as [kind|]; [|done].
  apply bind_Return_inv in H as (out & w1 & Hg & [= <- <-]).
  rewrite get_output_run in Hg.
  destruct (SpeechmaticsClient.output_url client job_id (VStr kind));
    [|done|done].
  injection Hg as Hg <-. unfold next_result in Hg.
  destruct (responses w) as [|r rs]; [done|].
  unfold SpeechmaticsClient.get_output_result in Hg.
  destruct (status_code r =? 200) eqn:E; [|done].
  injection Hg as <-. exists r. apply Z.eqb_eq in E. done.
Qed.

(** X12.  The bytes that a run returns are the body of the last response it
    took from the service, and that response was 200. *)
Theorem transcript_audio_returns_last_body full_path w b w' :
  SpeechmaticsSpeechToText.transcript_audio full_path w = (Return b, w') →
  ∃ used r,
    responses w = used ++ r :: responses w'
    ∧ status_code r = 200 ∧ b = list_byte_of_string (body r).
Proof.
  unfold SpeechmaticsSpeechToText.transcript_audio.
  intros (config & w1 & Hcfg & H)%bind_Return_inv.
  apply bind_Return_inv in H as (job_id & w2 & Hpost & H).
  unfold SpeechmaticsSpeechToText.poll_and_fetch in H.
  apply bind_Return_inv in H as (d & w3 & Hd & H).
  apply bind_Return_inv in H as (fuel & w4 & [= _ <-] & H).
  apply bind_Return_inv in H as (d' & w4 & Hpoll & H).
  apply fetch_output_Return_inv in H as (r & Hr & H200 & Hb).
  apply from_json_inv in Hcfg as [_ Hr1].
  apply keeps_consumed_job_post in Hpost.
  apply keeps_consumed_job_details in Hd.
  apply keeps_consumed_poll in Hpoll.
  destruct (consumed_trans _ _ _ (consumed_trans _ _ _ Hpost Hd) Hpoll)
    as [used Hused].
  exists used, r. by rewrite <- Hr1, Hused, Hr.
Qed.

(** * The errors of a run *)

Section Raises.

Context (E : exn → Prop).

Lemma raises_only_bind {A B} (m : M A) (f : A → M B) :
  raises_only E m → (∀ a, raises_only E (f a)) → raises_only E (m ≫= f).
Proof.
  intros Hm Hf w e w' [H|(a & w1 & _ & H)]%bind_Raise_inv.
  - by eapply Hm.
  - by eapply Hf.
Qed.

Lemma raises_only_lift {A} (o : outcome A) :
  (∀ e, o = Raise e → E e) → raises_only E (lift o).
Proof. intros H w e w' [= -> <-]. by apply H. Qed.

Lemma raises_only_Return {A} (f : world → A) (g : world → world) :
  raises_only E (λ w, (Return (f w), g w)).
Proof. by intros w e w'. Qed.

Lemma raises_only_http ev : raises_only E (http ev).
Proof. intros w e w'. unfold http. by destruct (responses w). Qed.

Lemma raises_only_py_open path :
  E IOError → E ValueError → E TypeError → raises_only E (py_open path).
Proof.
  intros H1 H2 H3 w e w'. unfold py_open.
  assert (∀ n, open_fd n w = (Raise e, w') → E e) as Hfd.
  { intros n. unfold open_fd.
    destruct (files w !! fd_name n); by intros [= <- <-]. }
  destruct path as [|b|n|p| |]; try (by intros [= <- <-]).
  - apply Hfd.
  - destruct (_ || _); [by intros [= <- <-]|].
    destruct (n <? 0); [by intros [= <- <-]|]. apply Hfd.
  - destruct (files w !! p); [by intros [= <- <-]|].
    destruct (str_contains _ p); by intros [= <- <-].
Qed.

Lemma raises_only_sleep v :
  E OverflowError → E ValueError → E TypeError → raises_only E (sleep v).
Proof.
  intros H0 H1 H2 w e w'. unfold sleep, raise, lift, emit.
  destruct v as [|b|n| | |]; try (by intros [= <- <-]).
  destruct (_ || _); [by intros [= <- <-]|].
  destruct (n <? 0); by intros [= <- <-].
Qed.

End Raises.

Lemma join_raises items e : join items = Raise e → e = TypeError.
Proof.
  induction items as [|[p|] items IH]; simpl; [done| |by intros [= <-]].
  destruct (join items); simpl; [done| |done]. intros [= <-]. by apply IH.
Qed.

Lemma getitem_raises v k e :
  getitem v k = Raise e → e = TypeError ∨ e = KeyError k.
Proof.
  destruct v; simpl; try (intros [= <-]; by left).
  destruct (d !! k); [done|]. intros [= <-]. by right.
Qed.

Lemma json_field_raises r k e :
  match json_loads r with
  | Return j => getitem j k
  | Raise e => Raise e
  | Starved => Starved
  end = Raise e →
  e = ValueError ∨ e = TypeError ∨ e = KeyError k.
Proof.
  unfold json_loads. destruct (json r); [|intros [= <-]; by left].
  intros [-> | ->]%getitem_raises; auto.
Qed.

Lemma model_data_raises lang e :
  SpeechmaticsClient.model_data lang = Raise e →
  e = TypeError ∨ e = AttributeError ∨ e = ValueError.
Proof.
  unfold SpeechmaticsClient.model_data, unpack2.
  destruct lang; repeat case_match; intros ?; simplify_eq; auto.
Qed.

Lemma expected_get_err code :
  code ≠ 200 →
  expected_error (SpeechmaticsError (SpeechmaticsClient.get_err_msg code) 1).
Proof. intros H. split; [done|]. left. exists code. auto. Qed.

Lemma expected_KeyError (k : string) :
  k ∈ ["id"; "job"; "job_status"; "check_wait"; "job_type"]%string →
  ∀ v e, getitem v k = Raise e → expected_error e.
Proof. intros Hk v e [-> | ->]%getitem_raises; done. Qed.

Lemma raises_expected_from_json file_name :
  raises_only expected_error (SpeechmaticsConfig.from_json file_name).
Proof.
  intros w e w'. unfold SpeechmaticsConfig.from_json. rewrite bind_run.
  unfold py_open at 1.
  destruct (files w !! file_name) as [c|] eqn:Hf;
    [|by destruct (str_contains _ _); intros [= <- <-]].
  rewrite bind_run. unfold with_file, json_load, py_close. simpl.
  rewrite lookup_insert_eq, Hf. unfold lift.
  destruct c as [rec|]; [|by intros [= <- <-]].
  intros [= Hcall <-]. revert Hcall.
  unfold SpeechmaticsConfig.call_star. destruct rec; try by intros [= <-].
  unfold SpeechmaticsConfig.call.
  case_bool_decide; [|by intros [= <-]].
  destruct (d !! "userId"%string) as [u|]; [|by intros [= <-]].
  destruct (d !! "apiAuthToken"%string) as [a|]; [|by intros [= <-]].
  intros Hinit.
  destruct (init_cases u a (d !! "language"%string) (d !! "format"%string)
              (d !! "text"%string) (d !! "callback_url"%string)
              (d !! "notification"%string)
              (d !! "notification_email"%string))
    as [[E _]|[[E _]|[[E _]|[[E _]|[E _]]]]];
    rewrite E in Hinit; try done; injection Hinit as <-; simpl;
    repeat constructor.
Qed.

Lemma raises_expected_job_post self audio lang text cb nt ne :
  raises_only expected_error
    (SpeechmaticsClient.job_post self audio lang text cb nt ne).
Proof.
  unfold SpeechmaticsClient.job_post.
  apply raises_only_bind; [apply (raises_only_Return _ (λ _, tt))|].
  intros _. apply raises_only_bind.
  { apply raises_only_lift. intros e ->%join_raises. done. }
  intros url. apply raises_only_bind; [by apply raises_only_py_open|].
  intros f. apply raises_only_bind.
  { destruct (truthy text); [|apply (raises_only_Return _ (λ _, _) id)].
    apply raises_only_bind; [by apply raises_only_py_open|].
    intros g. apply (raises_only_Return _ (λ _, _) id). }
  intros fs. apply raises_only_bind.
  { apply raises_only_lift. by intros e [-> | [-> | ->]]%model_data_raises. }
  intros data. apply raises_only_bind; [apply raises_only_http|].
  intros r. apply raises_only_lift. intros e.
  unfold SpeechmaticsClient.job_post_result.
  destruct (Z.eqb_spec (status_code r) 200) as [_|Hc].
  - intros [-> | [-> | ->]]%json_field_raises; try done.
    simpl. repeat constructor.
  - intros [= <-]. split; [done|]. left. exists (status_code r). auto.
Qed.

Lemma raises_expected_job_details client job_id :
  raises_only expected_error (SpeechmaticsClient.job_details client job_id).
Proof.
  intros w e w'. rewrite job_details_run.
  destruct (SpeechmaticsClient.details_url client job_id) as [url|e0|] eqn:Eu;
    intros [= H <-];
    [|subst; unfold SpeechmaticsClient.details_url in Eu;
      by apply join_raises in Eu as ->].
  unfold next_result in H. destruct (responses w) as [|r rs]; [done|].
  unfold SpeechmaticsClient.job_details_result in H.
  destruct (Z.eqb_spec (status_code r) 200) as [_|Hc].
  - apply json_field_raises in H as [-> | [-> | ->]]; try done.
    simpl. repeat constructor.
  - injection H as <-. by apply expected_get_err.
Qed.

Lemma raises_expected_get_output client job_id frmat kind :
  raises_only expected_error
    (SpeechmaticsClient.get_output client job_id frmat kind).
Proof.
  intros w e w'. rewrite get_output_run.
  destruct (SpeechmaticsClient.output_url client job_id kind)
    as [url|e0|] eqn:Eu;
    intros [= H <-];
    [|subst; unfold SpeechmaticsClient.output_url in Eu;
      by apply join_raises in Eu as ->].
  unfold next_result in H. destruct (responses w) as [|r rs]; [done|].
  unfold SpeechmaticsClient.get_output_result in H.
  destruct (Z.eqb_spec (status_code r) 200) as [_|Hc]; [done|].
  injection H as <-. by apply expected_get_err.
Qed.

Lemma raises_expected_poll fuel client job_id :
  ∀ d, raises_only expected_error
         (SpeechmaticsSpeechToText.poll fuel client job_id d).
Proof.
  assert (∀ d (k : string),
            k ∈ ["id"; "job"; "job_status"; "check_wait"; "job_type"]%string →
            raises_only expected_error (lift (getitem d k))) as Hget.
  { intros d k Hk. apply raises_only_lift. by apply expected_KeyError. }
  induction fuel as [|fuel IH]; intros d; simpl;
    (apply raises_only_bind;
     [apply Hget;
      repeat constructor|]);
    intros s; (destruct (SpeechmaticsSpeechToText.terminal s);
               [apply (raises_only_Return _ (λ _, _) id)|]).
  - by apply raises_only_lift.
  - apply raises_only_bind;
      [apply Hget;
       repeat constructor|].
    intros n. apply raises_only_bind; [by apply raises_only_sleep|].
    intros _. apply raises_only_bind; [apply raises_expected_job_details|].
    apply IH.
Qed.

Lemma raises_expected_fetch_output config client job_id d :
  raises_only expected_error
    (SpeechmaticsSpeechToText.fetch_output config client job_id d).
Proof.
  assert (∀ (k : string),
            k ∈ ["id"; "job"; "job_status"; "check_wait"; "job_type"]%string →
            raises_only expected_error (lift (getitem d k))) as Hget.
  { intros k Hk. apply raises_only_lift. by apply expected_KeyError. }
  unfold SpeechmaticsSpeechToText.fetch_output.
  apply raises_only_bind;
    [apply Hget;
     repeat constructor|].
  intros s. destruct (eq_str s _).
  { apply raises_only_lift. intros e [= <-]. split; [done|]. auto. }
  apply raises_only_bind;
    [apply Hget;
     repeat constructor|].
  intros s'. destruct (eq_str s' _).
  { apply raises_only_lift. intros e [= <-]. split; [done|]. auto. }
  apply raises_only_bind.
  { apply raises_only_lift. intros e.
    unfold SpeechmaticsSpeechToText.output_kind.
    destruct (getitem d "job_type") as [jt|e'|] eqn:Ej; [|intros [= <-]|done].
    - by repeat case_match.
    - eapply (expected_KeyError "job_type"); [|done].
      repeat constructor. }
  intros [kind|]; [|apply raises_only_lift; by intros e [= <-]].
  apply raises_only_bind; [apply raises_expected_get_output|].
  intros out. apply (raises_only_Return _ (λ _, _) id).
Qed.

(** X13.  A run ends with no other exception than these: the four errors of the
    validation, the interpreter's own errors for a value of the wrong
    shape or size, [KeyError] for one of the five fields the program reads,
    [UnboundLocalError] for [job_type], and [SpeechmaticsError] with the
    return code 1 and the message of a response that is not 200 or of one of
    the two failure statuses. *)
Theorem transcript_audio_raises_expected full_path w e w' :
  SpeechmaticsSpeechToText.transcript_audio full_path w = (Raise e, w') →
  expected_error e.
Proof.
  revert w e w'.
  change (raises_only expected_error
            (SpeechmaticsSpeechToText.transcript_audio full_path)).
  unfold SpeechmaticsSpeechToText.transcript_audio.
  apply raises_only_bind; [apply raises_expected_from_json|].
  intros config. apply raises_only_bind; [apply raises_expected_job_post|].
  intros job_id. unfold SpeechmaticsSpeechToText.poll_and_fetch.
  apply raises_only_bind; [apply raises_expected_job_details|].
  intros d. apply raises_only_bind;
    [apply (raises_only_Return _ (λ w, S (length (responses w))) id)|].
  intros fuel. apply raises_only_bind; [apply raises_expected_poll|].
  apply raises_expected_fetch_output.
Qed.

(** * Where the requests of a run go *)

Lemma emits_only_sleep (P : event → Prop) v :
  (∀ n, P (EvSleep n)) → emits_only P (sleep v).
Proof.
  intros HP. unfold sleep.
  destruct v as [|b|n| | |]; try apply emits_only_lift.
  - intros w o w' [= <- <-]. eexists. split; [reflexivity|].
    by repeat constructor.
  - destruct (_ || _); [apply emits_only_lift|].
    destruct (n <? 0); [apply emits_only_lift|].
    intros w o w' [= <- <-]. eexists. split; [reflexivity|].
    by repeat constructor.
Qed.

Lemma emits_only_poll_and_fetch (P : event → Prop) config client job_id :
  (∀ n, P (EvSleep n)) →
  emits_only P (SpeechmaticsClient.job_details client job_id) →
  (∀ frmat kind,
     emits_only P (SpeechmaticsClient.get_output client job_id frmat kind)) →
  emits_only P (SpeechmaticsSpeechToText.poll_and_fetch config client job_id).
Proof.
  intros Hsleep Hdetails Houtput.
  assert (∀ fuel d,
            emits_only P (SpeechmaticsSpeechToText.poll fuel client job_id d))
    as Hpoll.
  { induction fuel as [|fuel IH]; intros d; simpl;
      (apply emits_only_bind; [apply emits_only_lift|]); intros status;
      (destruct (SpeechmaticsSpeechToText.terminal status);
       [apply emits_only_mret|]).
    - apply emits_only_lift.
    - apply emits_only_bind; [apply emits_only_lift|]. intros wait_s.
      apply emits_only_bind; [by apply emits_only_sleep|]. intros _.
      apply emits_only_bind; [apply Hdetails|]. apply IH. }
  unfold SpeechmaticsSpeechToText.poll_and_fetch.
  apply emits_only_bind; [apply Hdetails|]. intros d.
  apply emits_only_bind;
    [apply (emits_only_pure _ (λ w, Return (S (length (responses w)))))|].
  intros fuel. apply emits_only_bind; [apply Hpoll|]. intros d'.
  unfold SpeechmaticsSpeechToText.fetch_output.
  apply emits_only_bind; [apply emits_only_lift|]. intros status.
  destruct (eq_str status _); [apply emits_only_lift|].
  apply emits_only_bind; [apply emits_only_lift|]. intros status'.
  destruct (eq_str status' _); [apply emits_only_lift|].
  apply emits_only_bind; [apply emits_only_lift|]. intros [kind|];
    [|apply emits_only_lift].
  apply emits_only_bind; [apply Houtput|]. intros out.
  apply emits_only_mret.
Qed.

Lemma join_Some_cons p items url :
  join (Some p :: items) = Return url →
  ∃ url', join items = Return url' ∧ url = p :: url'.
Proof. simpl. destruct (join items); [|done..]. intros [= <-]. eauto. Qed.

Lemma url_extends_jobs client (more : list (option piece)) url :
  join ([item (SpeechmaticsClient.base_url client); Some (Lit "/user/");
         item (SpeechmaticsClient.api_user_id client); Some (Lit "/jobs/")]
        ++ more) = Return url →
  ∃ jobs rest, SpeechmaticsClient.jobs_url client = Return jobs
               ∧ url = jobs ++ rest.
Proof.
  unfold SpeechmaticsClient.jobs_url.
  destruct (item (SpeechmaticsClient.base_url client)) as [b|]; [|done].
  destruct (item (SpeechmaticsClient.api_user_id client)) as [u|];
    [|simpl; by destruct b].
  intros H.
  apply join_Some_cons in H as (u1 & H & ->).
  apply join_Some_cons in H as (u2 & H & ->).
  apply join_Some_cons in H as (u3 & H & ->).
  apply join_Some_cons in H as (u4 & H & ->).
  exists [b; Lit "/user/"; u; Lit "/jobs/"], u4. done.
Qed.

Lemma output_params_token client frmat kind :
  SpeechmaticsClient.output_params client frmat kind !! "auth_token"%string
  = Some (SpeechmaticsClient.api_token client).
Proof.
  unfold SpeechmaticsClient.output_params.
  repeat case_match; rewrite ?lookup_insert_ne by done;
    by rewrite lookup_singleton_eq.
Qed.

Lemma addressed_job_details client job_id :
  emits_only (addressed client) (SpeechmaticsClient.job_details client job_id).
Proof.
  intros w o w'. rewrite job_details_run.
  destruct (SpeechmaticsClient.details_url client job_id) as [url|e|] eqn:Eu;
    intros [= <- <-]; eexists; (split; [reflexivity|]);
    repeat (apply Forall_cons_2 || apply Forall_nil_2); simpl; try done.
  split; [|by rewrite lookup_singleton_eq].
  by apply (url_extends_jobs client [Some (StrOf job_id); Some (Lit "/")]).
Qed.

Lemma addressed_get_output client job_id frmat kind :
  emits_only (addressed client)
    (SpeechmaticsClient.get_output client job_id frmat kind).
Proof.
  intros w o w'. rewrite get_output_run.
  destruct (SpeechmaticsClient.output_url client job_id kind)
    as [url|e|] eqn:Eu;
    intros [= <- <-]; eexists; (split; [reflexivity|]);
    repeat (apply Forall_cons_2 || apply Forall_nil_2); simpl; try done.
  split; [|apply output_params_token].
  by apply (url_extends_jobs client
              [Some (StrOf job_id); Some (Lit "/"); item kind]).
Qed.

Lemma addressed_job_post client audio lang text cb nt ne :
  emits_only (addressed client)
    (SpeechmaticsClient.job_post client audio lang text cb nt ne).
Proof.
  intros w o w' H.
  apply job_post_inv in H
    as [[(_ & _ & Ht)|(url & fs & d & Hu & _ & Ht & _)] _];
    eexists; (split; [exact Ht|]);
    repeat (apply Forall_cons_2 || apply Forall_nil_2); simpl; try done.
Qed.

(** X14.  Every request of a run, the POST and every GET, goes to the jobs of
    the user of the configuration, under the base URL of the service, and
    carries the token of the configuration. *)
Theorem transcript_audio_requests_addressed full_path w config w1 o w' :
  SpeechmaticsConfig.from_json CONFIG_FILE w = (Return config, w1) →
  SpeechmaticsSpeechToText.transcript_audio full_path w = (o, w') →
  ∃ later,
    trace w' = trace w ++ later
    ∧ Forall (addressed (SpeechmaticsSpeechToText.client_of config)) later.
Proof.
  intros Hcfg. unfold SpeechmaticsSpeechToText.transcript_audio.
  rewrite bind_run, Hcfg. apply from_json_inv in Hcfg as [<- _].
  revert w1 o w'.
  change (emits_only (addressed (SpeechmaticsSpeechToText.client_of config))
            (SpeechmaticsSpeechToText.submit config full_path
             ≫= SpeechmaticsSpeechToText.poll_and_fetch config
                  (SpeechmaticsSpeechToText.client_of config))).
  apply emits_only_bind; [apply addressed_job_post|]. intros job_id.
  apply emits_only_poll_and_fetch;
    [done|apply addressed_job_details|intros; apply addressed_get_output].
Qed.

(** * A run that fails before the submission *)

(** X15.  When the configuration cannot be loaded, the run ends with the error
    of the loading and has done nothing else: no request, no event. *)
Theorem transcript_audio_loading_fails full_path w e w1 :
  SpeechmaticsConfig.from_json CONFIG_FILE w = (Raise e, w1) →
  SpeechmaticsSpeechToText.transcript_audio full_path w = (Raise e, w1)
  ∧ trace w1 = trace w ∧ responses w1 = responses w.
Proof.
  intros Hcfg. unfold SpeechmaticsSpeechToText.transcript_audio.
  rewrite bind_run, Hcfg. by apply from_json_inv in Hcfg as [-> ->].
Qed.

(** X16.  A user identifier that is no string (a number in the configuration
    file, say) passes the validation, and the run then ends with
    [TypeError] when the URL of the submission is joined: no audio file is
    opened and no request made. *)
Theorem transcript_audio_user_id_not_text full_path w config w1 :
  SpeechmaticsConfig.from_json CONFIG_FILE w = (Return config, w1) →
  (∀ s, SpeechmaticsConfig.userId config ≠ VStr s) →
  SpeechmaticsSpeechToText.transcript_audio full_path w =
  (Raise TypeError,
   advance w1 (responses w1)
     [post_call full_path (SpeechmaticsConfig.language config)
        (SpeechmaticsConfig.text config)
        (SpeechmaticsConfig.callback_url config)
        (SpeechmaticsConfig.notification config)
        (SpeechmaticsConfig.notification_email config)]).
Proof.
  intros Hcfg Hu. unfold SpeechmaticsSpeechToText.transcript_audio.
  rewrite bind_run, Hcfg. rewrite bind_run.
  unfold SpeechmaticsSpeechToText.submit, SpeechmaticsSpeechToText.client_of.
  by rewrite (proj1 (client_user_id_not_text _ _ w1 Hu)).
Qed.

(** ** The further properties on the samples *)

Lemma from_json_leaves_world_witness :
  open_files (loaded (world_of (VDict config_u1) script_done)) = ∅.
Proof.
  exact (proj1 (from_json_leaves_world CONFIG_FILE
                  (world_of (VDict config_u1) script_done) _ _
                  ltac:(vm_compute; reflexivity)
                  (surjective_pairing _))).
Defined.


Lemma job_post_uploads_witness :
  trace (snd (SpeechmaticsClient.job_post client_u1 (VStr "a.mp3")
                (VStr "en-US") (VStr "a.txt") VNone VNone VNone
                (world_of (VDict config_u1) [submitted (VStr "42")])))
  = [post_call (VStr "a.mp3") (VStr "en-US") (VStr "a.txt") VNone VNone VNone;
     EvPost [Lit SpeechmaticsClient.default_base_url; Lit "/user/"; Lit "u1";
             Lit "/jobs/"]
       {[ "model"%string := VStr "en-US" ]}
       {[ "data_file"%string := 0%nat; "text_file"%string := 1%nat ]}
       {[ "auth_token"%string := VStr "t1" ]}].
Proof.
  unfold client_u1.
  rewrite (proj2 (job_post_uploads "u1" (VStr "t1") "a.mp3" (VStr "en-US")
                    (VStr "a.txt") VNone VNone VNone
                    (world_of (VDict config_u1) [submitted (VStr "42")])
                    None {[ "model"%string := VStr "en-US" ]}
                    ltac:(vm_compute; reflexivity)
                    ltac:(vm_compute; reflexivity))
             "a.txt"%string None eq_refl
             ltac:(discriminate) ltac:(vm_compute; reflexivity)).
  vm_compute. reflexivity.
Defined.


Lemma job_post_language_not_text_witness :
  fst (SpeechmaticsClient.job_post client_u1 (VStr "a.mp3") (VInt 5)
         VNone VNone VNone VNone
         (world_of (VDict config_u1) [submitted (VStr "42")]))
  = Raise TypeError.
Proof.
  unfold client_u1.
  rewrite (job_post_language_not_text "u1" (VStr "t1") "a.mp3" (VInt 5)
             VNone VNone VNone VNone
             (world_of (VDict config_u1) [submitted (VStr "42")]) None
             ltac:(vm_compute; reflexivity) ltac:(reflexivity)
             (or_intror (or_intror (ex_intro _ 5 eq_refl)))).
  reflexivity.
Defined.

Lemma job_post_notification_witness :
  data_callback !! "notification"%string = Some (VStr "callback")
  ∧ data_callback !! "callback"%string = Some VNone
  ∧ data_callback !! "notification_email_address"%string
    = Some (VStr "a@b.c").
Proof.
  refine (job_post_notification client_u1 (VStr "a.mp3") (VStr "en-US") VNone
            VNone (VStr "callback") (VStr "a@b.c")
            (world_of (VDict config_u1) [submitted (VStr "42")])
            _ _ _ data_callback _ _ _ _).
  - apply surjective_pairing.
  - vm_compute. reflexivity.
Defined.

Lemma ok_response_is_read_witness :
  fst (SpeechmaticsClient.job_details client_u1 (VStr "42")
         (world_of (VDict config_u1) [ok_json (VDict ∅)]))
  = Raise (KeyError "job").
Proof.
  refine (proj1 (proj2 (ok_response_is_read client_u1
            (world_of (VDict config_u1) [ok_json (VDict ∅)])
            (ok_json (VDict ∅)) [] _ _))
            (VStr "42") _
            (snd (SpeechmaticsClient.job_details client_u1 (VStr "42")
                    (world_of (VDict config_u1) [ok_json (VDict ∅)]))) _ _).
  - reflexivity.
  - reflexivity.
  - apply surjective_pairing.
  - vm_compute. reflexivity.
Defined.

Lemma get_output_params_witness :
  params_alignment !! "format"%string = None
  ∧ params_alignment !! "tags"%string = Some (VStr "one_per_line").
Proof.
  destruct (get_output_params client_u1 (VStr "42") (VStr "txt")
              (VStr "alignment")
              (world_of (VDict config_u1) [output "hello world"])
              _ _ _ params_alignment
              (surjective_pairing _)
              ltac:(vm_compute; reflexivity))
    as (_ & Hf & Ht & _).
  split; [exact Hf | exact Ht].
Defined.

Lemma poll_returns_terminal_witness :
  ∃ st, getitem (VDict (ended "done" (VStr "transcription"))) "job_status"
        = Return (VStr st)
        ∧ (st = "done" ∨ st = "expired" ∨ st = "unsupported_file_format"
           ∨ st = "could_not_align")%string.
Proof.
  exact (poll_returns_terminal 1 client_u1 (VStr "42") (VDict (running 2))
           (world_of (VDict config_u1)
              [details (ended "done" (VStr "transcription"))])
           (VDict (ended "done" (VStr "transcription"))) _
           ltac:(vm_compute; reflexivity)).
Defined.



Lemma transcript_audio_returns_last_body_witness :
  ∃ used r,
    script_done = used ++ r :: []
    ∧ status_code r = 200
    ∧ list_byte_of_string "hello world" = list_byte_of_string (body r).
Proof.
  exact (transcript_audio_returns_last_body (VStr "a.mp3")
           (world_of (VDict config_u1) script_done)
           (list_byte_of_string "hello world")
           (advance
              (snd (SpeechmaticsSpeechToText.transcript_audio (VStr "a.mp3")
                      (world_of (VDict config_u1) script_done)))
              [] [])
           ltac:(vm_compute; reflexivity)).
Defined.

Lemma transcript_audio_raises_expected_witness :
  expected_error
    (SpeechmaticsError SpeechmaticsSpeechToText.unsupported_msg 1).
Proof.
  exact (transcript_audio_raises_expected (VStr "a.mp3")
           (world_of (VDict config_u1) script_unsupported) _
           (snd (SpeechmaticsSpeechToText.transcript_audio (VStr "a.mp3")
                   (world_of (VDict config_u1) script_unsupported)))
           ltac:(vm_compute; reflexivity)).
Defined.

Lemma transcript_audio_requests_addressed_witness :
  ∃ later,
    trace (snd (SpeechmaticsSpeechToText.transcript_audio (VStr "a.mp3")
                  (world_of (VDict config_u1) script_waits)))
    = trace (world_of (VDict config_u1) script_waits) ++ later
    ∧ Forall (addressed client_u1) later.
Proof.
  exact (transcript_audio_requests_addressed (VStr "a.mp3")
           (world_of (VDict config_u1) script_waits) config_u1_loaded
           (loaded (world_of (VDict config_u1) script_waits)) _ _
           ltac:(vm_compute; reflexivity)
           (surjective_pairing _)).
Defined.

Lemma transcript_audio_loading_fails_witness :
  SpeechmaticsSpeechToText.transcript_audio (VStr "a.mp3") empty_world
  = (Raise IOError, empty_world).
Proof.
  exact (proj1 (transcript_audio_loading_fails (VStr "a.mp3") empty_world
                  IOError empty_world ltac:(vm_compute; reflexivity))).
Defined.

Lemma transcript_audio_user_id_not_text_witness :
  fst (SpeechmaticsSpeechToText.transcript_audio (VStr "a.mp3")
         (world_of (VDict config_numeric_user) script_done))
  = Raise TypeError.
Proof.
  rewrite (transcript_audio_user_id_not_text (VStr "a.mp3")
             (world_of (VDict config_numeric_user) script_done)
             config_numeric_loaded
             (loaded (world_of (VDict config_numeric_user) script_done))
             ltac:(vm_compute; reflexivity)
             ltac:(intros s; discriminate)).
  reflexivity.
Defined.
